(** * flask_navigation.item: navigation items and their collection

    A shallow embedding of [flask_navigation/item.py]: the [Item] class with
    its computed properties ([args], [url], [is_active], [ident]) and the
    [ItemCollection] mutable sequence, which keeps a list of items and a
    dictionary from item identity to item side by side. *)

From Stdlib Require Import ZArith String Ascii OrderedTypeEx.
From stdpp Require Import gmap strings list sorting.

Local Open Scope Z_scope.

(** ** Python values

    The values that travel through a navigation item: [None], integers and
    strings.  All of them are hashable, and [==] on them is structural. *)

Inductive pyval : Type :=
  | PNone
  | PInt (z : Z)
  | PStr (s : string).

#[global] Instance pyval_eq_dec : EqDecision pyval.
Proof. solve_decision. Defined.

Definition pyval_to_sum (v : pyval) : unit + (Z + string) :=
  match v with
  | PNone => inl tt
  | PInt z => inr (inl z)
  | PStr s => inr (inr s)
  end.

Definition pyval_of_sum (x : unit + (Z + string)) : pyval :=
  match x with
  | inl _ => PNone
  | inr (inl z) => PInt z
  | inr (inr s) => PStr s
  end.

#[global] Instance pyval_countable : Countable pyval.
Proof.
  refine (inj_countable' pyval_to_sum pyval_of_sum _).
  by intros [].
Defined.

(** ** Python dictionaries

    A [dict] with string keys is the list of its entries in insertion order.
    A well-formed dictionary holds each key once. *)

Abbreviation pairs := (list (string * pyval)).
Abbreviation pydict := (list (string * pyval)).

Definition dict_wf (d : pydict) : Prop := NoDup d.*1.

#[global] Instance dict_wf_dec d : Decision (dict_wf d).
Proof. unfold dict_wf. apply _. Defined.

(** [d[k]] as a total lookup: [None] when the key is absent. *)
Fixpoint dict_get (d : pydict) (k : string) : option pyval :=
  match d with
  | [] => None
  | (k', v) :: d' => if decide (k' = k) then Some v else dict_get d' k
  end.

(** [d[k] = v]: an existing key keeps its place, a new key goes last. *)
Fixpoint dict_set (d : pydict) (k : string) (v : pyval) : pydict :=
  match d with
  | [] => [(k, v)]
  | (k', v') :: d' =>
      if decide (k' = k) then (k, v) :: d' else (k', v') :: dict_set d' k v
  end.

(** [dict(x)]: a fresh dictionary filled from the entries of [x], in order. *)
Definition dict_ctor (x : pairs) : pydict :=
  foldl (λ d kv, dict_set d kv.1 kv.2) [] x.

(** [a == b] on dictionaries: equal sizes, and every entry of [a] is found
    in [b] with an equal value. *)
Definition dict_eqb (a b : pydict) : bool :=
  (length a =? length b)%nat
  && forallb (λ kv, bool_decide (dict_get b kv.1 = Some kv.2)) a.

(** Two mappings hold the same key-value pairs. *)
Definition same_pairs (a b : pydict) : Prop := a ⊆ b ∧ b ⊆ a.

#[global] Instance same_pairs_dec a b : Decision (same_pairs a b).
Proof. unfold same_pairs. apply _. Defined.

(** ** [freeze_dict] *)

(** The order on entries that the sort uses: keys only, compared as strings. *)
Definition key_le (p q : string * pyval) : Prop :=
  String.leb p.1 q.1 = true.

#[global] Instance key_le_dec p q : Decision (key_le p q).
Proof. unfold key_le. apply _. Defined.

(** The frozen form of a dictionary: a tuple of (key, value) pairs. *)
Abbreviation frozen := (list (string * pyval)).

(** Modelled from the spec: [freeze_dict] lives in [flask_navigation/utils.py],
    which is not part of the sources at hand.  The specification describes it
    as: sort the mapping's entries by key, produce an ordered sequence of
    (key, value) pairs, and wrap it in an immutable hashable sequence. *)
Definition freeze_dict (d : pydict) : frozen :=
  merge_sort key_le d.

(** ** Exceptions and the state-and-error monad

    A method body runs against the object it mutates.  When it raises, the
    mutations made so far stay in place, so a run returns the outcome
    together with the state the object was left in. *)

Inductive exn : Type :=
  | KeyError
  | IndexError
  | TypeError
  | OverflowError
  | BuildError (endpoint : pyval).

Inductive result (A : Type) : Type :=
  | Ok (a : A)
  | Raise (e : exn).
Arguments Ok {A} a.
Arguments Raise {A} e.

Definition Py (S A : Type) : Type := S → result A * S.

#[global] Instance Py_ret {S} : MRet (Py S) := λ A a s, (Ok a, s).

#[global] Instance Py_bind {S} : MBind (Py S) := λ A B f m s,
  match m s with
  | (Ok a, s') => f a s'
  | (Raise e, s') => (Raise e, s')
  end.

(** Read an attribute of [self]. *)
Definition gets {S A} (f : S → A) : Py S A := λ s, (Ok (f s), s).

(** Assign to [self]. *)
Definition modify {S} (f : S → S) : Py S unit := λ s, (Ok tt, f s).

(** Run a computation that cannot touch [self]: its outcome, raised or not. *)
Definition lift {S A} (r : result A) : Py S A := λ s, (r, s).

(** The outcome of a run, and the state it leaves. *)
Definition outcome {S A} (m : Py S A) (s : S) : result A := (m s).1.
Definition final {S A} (m : Py S A) (s : S) : S := (m s).2.

(** ** The two capabilities taken from Flask *)

(** [flask.request], as far as this module reads it: the endpoint of the
    matched rule, a string or [None], and the matched view arguments, a
    dictionary or [None]. *)
Record Request : Type := {
  request_endpoint : pyval;
  request_view_args : option pydict;
}.

(** ** [class Item] *)

(** What the constructor may receive as [args]: nothing, a function of no
    argument that produces the mapping when it is called, within the request
    of that moment, or the mapping itself. *)
Inductive args_param : Type :=
  | ArgsNone
  | ArgsCallable (f : Request → pairs)
  | ArgsMapping (m : pairs).

(** The constructor stores what it is given: [label] and [endpoint] are
    whatever values the caller passed, a route name being a [PStr]. *)
Record Item : Type := {
  label : pyval;
  endpoint : pyval;
  _args : args_param;
  _url : option string;
}.

(** [Item.__init__(label, endpoint, args=None, url=None)]. *)
Definition Item__init__ (label : pyval) (endpoint : pyval)
    (args : args_param) (url : option string) : Item :=
  {| label := label; endpoint := endpoint; _args := args; _url := url |}.

Module Item.
Section properties.
(** [flask.url_for(endpoint, **values)]: a URL, or the error it raises. *)
Variable url_for : pyval → pydict → result string.
(** [flask.request] at the time a property is read. *)
Variable request : Request.

Definition args : Py Item pydict :=
  a ← gets _args;
  match a with
  | ArgsNone => mret []
  | ArgsCallable f => mret (dict_ctor (f request))
  | ArgsMapping m => mret (dict_ctor m)
  end.

Definition url : Py Item string :=
  u ← gets _url;
  match u with
  | None =>
      e ← gets endpoint;
      a ← args;
      lift (url_for e a)
  | Some u => mret u
  end.

Definition is_active : Py Item bool :=
  u ← gets _url;
  let is_internal := bool_decide (u = None) in
  e ← gets endpoint;
  let has_same_endpoint := bool_decide (request_endpoint request = e) in
  a ← args;
  let has_same_args :=
    match request_view_args request with
    | Some view_args => dict_eqb view_args a
    | None => false
    end in
  mret (is_internal && has_same_endpoint && has_same_args).

Definition ident : Py Item (pyval * frozen) :=
  e ← gets endpoint;
  a ← args;
  mret (e, freeze_dict a).
End properties.
End Item.

(** ** Python lists, as [ItemCollection] uses them *)

(** The position an index designates in a list of length [n]: a negative
    index counts from the end; outside [-n, n) there is none. *)
Definition list_position (n : nat) (i : Z) : option nat :=
  let j := if i <? 0 then i + Z.of_nat n else i in
  if (0 <=? j) && (j <? Z.of_nat n) then Some (Z.to_nat j) else None.

(** [l[i]]. *)
Definition list_getitem {A} (l : list A) (i : Z) : result A :=
  match list_position (length l) i with
  | Some j => match l !! j with Some x => Ok x | None => Raise IndexError end
  | None => Raise IndexError
  end.

(** [l[i] = x]. *)
Definition list_setitem {A} (l : list A) (i : Z) (x : A) : result (list A) :=
  match list_position (length l) i with
  | Some j => Ok (<[j:=x]> l)
  | None => Raise IndexError
  end.

(** [del l[i]]. *)
Definition list_delitem {A} (l : list A) (i : Z) : result (list A) :=
  match list_position (length l) i with
  | Some j => Ok (delete j l)
  | None => Raise IndexError
  end.

(** The position [l.insert(i, x)] writes to: a negative index counts from
    the end and stops at the head, a large one stops at the tail. *)
Definition insert_position (n : nat) (i : Z) : nat :=
  Z.to_nat (if i <? 0 then Z.max 0 (i + Z.of_nat n) else Z.min i (Z.of_nat n)).

(** The list [l.insert(i, x)] leaves when it returns. *)
Definition list_inserted {A} (l : list A) (i : Z) (x : A) : list A :=
  let j := insert_position (length l) i in
  take j l ++ x :: drop j l.

(** The range of a C [ssize_t], to which [list.insert] converts its index. *)
Definition ssize_t_min : Z := - 2 ^ 63.
Definition ssize_t_max : Z := 2 ^ 63 - 1.

(** Whether the index converts.  No list holds more than [ssize_t_max]
    items, so an index within the bounds of the list at hand always does. *)
Definition index_converts (n : nat) (i : Z) : bool :=
  (Z.min ssize_t_min (- Z.of_nat n) <=? i)
  && (i <=? Z.max ssize_t_max (Z.of_nat n)).

(** [l.insert(i, x)]: [OverflowError], before anything is changed, for an
    index that does not convert. *)
Definition list_insert {A} (l : list A) (i : Z) (x : A) : result (list A) :=
  if index_converts (length l) i then Ok (list_inserted l i x)
  else Raise OverflowError.

(** ** [class ItemCollection] *)

(** The key of the identity dictionary: [(endpoint, freeze_dict(args))]. *)
Abbreviation identity := (pyval * frozen)%type.

Record ItemCollection : Type := {
  _items : list Item;
  _items_mapping : gmap identity Item;
}.

(** What [c[...]] is subscripted with: a plain value, or an
    [(endpoint, args)] tuple. *)
Inductive subscript : Type :=
  | Plain (v : pyval)
  | Tuple (endpoint : pyval) (args : pydict).

(** A list accepts integer subscripts only. *)
Definition as_list_index (index : subscript) : result Z :=
  match index with
  | Plain (PInt i) => Ok i
  | _ => Raise TypeError
  end.

(** [d[k]] on the identity dictionary. *)
Definition mapping_getitem (d : gmap identity Item) (k : identity) : result Item :=
  match d !! k with
  | Some item => Ok item
  | None => Raise KeyError
  end.

(** [del d[k]] on the identity dictionary. *)
Definition mapping_delitem (d : gmap identity Item) (k : identity)
    : result (gmap identity Item) :=
  match d !! k with
  | Some _ => Ok (delete k d)
  | None => Raise KeyError
  end.

Module ItemCollection.
Section methods.
Variable request : Request.

(** [item.ident], read from within a method of the collection. *)
Definition ident_of (item : Item) : Py ItemCollection identity :=
  lift (outcome (Item.ident request) item).

Definition set_items (l : list Item) : Py ItemCollection unit :=
  modify (λ self, {| _items := l; _items_mapping := _items_mapping self |}).

Definition set_items_mapping (d : gmap identity Item) : Py ItemCollection unit :=
  modify (λ self, {| _items := _items self; _items_mapping := d |}).

Definition __getitem__ (index : subscript) : Py ItemCollection Item :=
  match index with
  | Plain (PInt i) =>
      (* isinstance(index, int) *)
      items ← gets _items;
      lift (list_getitem items i)
  | Tuple endpoint args =>
      (* isinstance(index, tuple) *)
      let ident := (endpoint, freeze_dict args) in
      mapping ← gets _items_mapping;
      lift (mapping_getitem mapping ident)
  | Plain endpoint =>
      let ident := (endpoint, freeze_dict []) in
      mapping ← gets _items_mapping;
      lift (mapping_getitem mapping ident)
  end.

Definition __setitem__ (index : subscript) (item : Item) : Py ItemCollection unit :=
  (* old_item = self._items[index] *)
  items ← gets _items;
  i ← lift (as_list_index index);
  old_item ← lift (list_getitem items i);
  (* del self._items_mapping[old_item.ident] *)
  old_ident ← ident_of old_item;
  mapping ← gets _items_mapping;
  mapping' ← lift (mapping_delitem mapping old_ident);
  set_items_mapping mapping';;
  (* self._items[index] = item *)
  items ← gets _items;
  items' ← lift (list_setitem items i item);
  set_items items';;
  (* self._items_mapping[item.ident] = item *)
  new_ident ← ident_of item;
  mapping ← gets _items_mapping;
  set_items_mapping (<[new_ident := item]> mapping).

Definition __delitem__ (index : subscript) : Py ItemCollection unit :=
  (* item = self[index] *)
  item ← __getitem__ index;
  (* del self._items[index] *)
  items ← gets _items;
  i ← lift (as_list_index index);
  items' ← lift (list_delitem items i);
  set_items items';;
  (* del self._items_mapping[item.ident] *)
  k ← ident_of item;
  mapping ← gets _items_mapping;
  mapping' ← lift (mapping_delitem mapping k);
  set_items_mapping mapping'.

Definition __len__ : Py ItemCollection nat :=
  items ← gets _items;
  mret (length items).

Definition __iter__ : Py ItemCollection (list Item) :=
  gets _items.

Definition insert (index : Z) (item : Item) : Py ItemCollection unit :=
  (* self._items.insert(index, item) *)
  items ← gets _items;
  items' ← lift (list_insert items index item);
  set_items items';;
  (* self._items_mapping[item.ident] = item *)
  k ← ident_of item;
  mapping ← gets _items_mapping;
  set_items_mapping (<[k := item]> mapping).

(** [MutableSequence.append]: [self.insert(len(self), value)]. *)
Definition append (value : Item) : Py ItemCollection unit :=
  n ← __len__;
  insert (Z.of_nat n) value.

(** [MutableSequence.extend]: [for v in values: self.append(v)]. *)
Fixpoint extend (values : list Item) : Py ItemCollection unit :=
  match values with
  | [] => mret tt
  | v :: values' => append v;; extend values'
  end.

(** The attributes [__init__] starts from, before its initial [extend]. *)
Definition empty : ItemCollection :=
  {| _items := []; _items_mapping := ∅ |}.

(** [ItemCollection(iterable)]. *)
Definition __init__ (iterable : list Item) : result unit * ItemCollection :=
  extend iterable empty.

End methods.
End ItemCollection.

(** ** Vocabulary of the statements *)

(** The mapping a read of [item.args] yields under [request]. *)
Definition resolved_args (request : Request) (item : Item) : pydict :=
  match outcome (Item.args request) item with
  | Ok a => a
  | Raise _ => []
  end.

(** The identity [item.ident] yields under [request]. *)
Definition identity_of (request : Request) (item : Item) : identity :=
  (endpoint item, freeze_dict (resolved_args request item)).

(** The request carries a dictionary (or [None]) as its view arguments. *)
Definition request_wf (request : Request) : Prop :=
  ∀ view_args, request_view_args request = Some view_args → dict_wf view_args.

(** The identities of the items of the sequence, in order. *)
Definition identities (request : Request) (c : ItemCollection) : list identity :=
  identity_of request <$> _items c.

(** No two items of the sequence share an identity. *)
Definition distinct (request : Request) (c : ItemCollection) : Prop :=
  NoDup (identities request c).

(** The two indexes agree: the dictionary's keys are the identities of the
    items in the sequence, and both hold the same number of entries. *)
Definition consistent (request : Request) (c : ItemCollection) : Prop :=
  dom (_items_mapping c) = list_to_set (identities request c)
  ∧ size (_items_mapping c) = length (_items c).

(** The mutating calls of the sequence interface. *)
Inductive mutation : Type :=
  | SetAt (index : Z) (item : Item)
  | DeleteAt (index : Z)
  | Append (item : Item)
  | Extend (items : list Item)
  | InsertAt (index : Z) (item : Item).

Definition run (request : Request) (op : mutation) : Py ItemCollection unit :=
  match op with
  | SetAt index item => ItemCollection.__setitem__ request (Plain (PInt index)) item
  | DeleteAt index => ItemCollection.__delitem__ request (Plain (PInt index))
  | Append item => ItemCollection.append request item
  | Extend items => ItemCollection.extend request items
  | InsertAt index item => ItemCollection.insert request index item
  end.

(** The items a call brings into the collection. *)
Definition added (op : mutation) : list Item :=
  match op with
  | SetAt _ item => [item]
  | DeleteAt _ => []
  | Append item => [item]
  | Extend items => items
  | InsertAt _ item => [item]
  end.

(** The call brings in no identity that is already present, and none twice. *)
Definition brings_new (request : Request) (c : ItemCollection) (op : mutation) : Prop :=
  NoDup (identity_of request <$> added op)
  ∧ Forall (λ item, identity_of request item ∉ identities request c) (added op).

(** An index within the range of a C [ssize_t]. *)
Definition fits_ssize_t (index : Z) : Prop :=
  ssize_t_min ≤ index ≤ ssize_t_max.

#[global] Instance fits_ssize_t_dec index : Decision (fits_ssize_t index).
Proof. unfold fits_ssize_t. apply _. Defined.


(** The identity a subscript that is not an integer is looked up under. *)
Definition subscript_key (index : subscript) : identity :=
  match index with
  | Plain endpoint => (endpoint, freeze_dict [])
  | Tuple endpoint args => (endpoint, freeze_dict args)
  end.

(** An index outside [-n, n), for a sequence of length [n]. *)
Definition out_of_range (n : nat) (index : Z) : Prop :=
  index < - Z.of_nat n ∨ Z.of_nat n ≤ index.

(** A [url_for] over a fixed routing table: the rule of the endpoint, or
    [BuildError] for an endpoint the table does not know. *)
Definition url_for_table (routes : gmap pyval string)
    (endpoint : pyval) (values : pydict) : result string :=
  match routes !! endpoint with
  | Some rule => Ok rule
  | None => Raise (BuildError endpoint)
  end.

(** ** Sample data *)

(** No rule matched: neither endpoint nor view arguments. *)
Definition no_request : Request :=
  {| request_endpoint := PNone; request_view_args := None |}.

Definition request_about : Request :=
  {| request_endpoint := PStr "about"; request_view_args := Some [] |}.

Definition request_home : Request :=
  {| request_endpoint := PStr "home"; request_view_args := Some [] |}.

Definition item_home : Item :=
  Item__init__ (PStr "Home") (PStr "home") ArgsNone None.
Definition item_about : Item :=
  Item__init__ (PStr "About") (PStr "about") (ArgsMapping []) None.
Definition item_contact : Item :=
  Item__init__ (PStr "Contact") (PStr "contact") ArgsNone None.
Definition item_blog : Item :=
  Item__init__ (PStr "Blog") (PStr "blog") ArgsNone
    (Some "http://blog.example.org/"%string).


Definition item_x_ab : Item :=
  Item__init__ (PStr "first") (PStr "x")
    (ArgsMapping [("a", PInt 1); ("b", PInt 2)]%string) None.
Definition item_x_ba : Item :=
  Item__init__ (PStr "second") (PStr "x")
    (ArgsMapping [("b", PInt 2); ("a", PInt 1)]%string) None.

Definition menu3 : ItemCollection :=
  (ItemCollection.__init__ no_request [item_home; item_about; item_contact]).2.

(** [c[i]] for an integer [i], its outcome. *)
Definition item_at (i : Z) (c : ItemCollection) : result Item :=
  outcome (ItemCollection.__getitem__ (Plain (PInt i))) c.

(** An [args] function that takes the view arguments of the request at
    hand, [{}] when there are none. *)
Definition view_args_of (request : Request) : pairs :=
  default [] (request_view_args request).

Definition item_page : Item :=
  Item__init__ (PStr "Page") (PStr "page") (ArgsCallable view_args_of) None.

Definition request_page1 : Request :=
  {| request_endpoint := PStr "page";
     request_view_args := Some [("id", PInt 1)]%string |}.

Definition request_page2 : Request :=
  {| request_endpoint := PStr "page";
     request_view_args := Some [("id", PInt 2)]%string |}.

(** A collection built while page 1 is requested. *)
Definition pages : ItemCollection :=
  (ItemCollection.__init__ request_page1 [item_home; item_page]).2.

Definition menu_x : ItemCollection :=
  (ItemCollection.__init__ no_request [item_x_ab]).2.

(** * Properties *)

(** Closed decidable facts are settled by evaluating their decision
    procedure. *)
Ltac decide_by_computation :=
  apply (bool_decide_unpack _); vm_compute; exact I.

(** ** The order on keys and the frozen form *)

Lemma string_leb_spec (a b : string) :
  String.leb a b = true ↔ a = b ∨ String_as_OT.lt a b.
Proof.
  unfold String.leb. rewrite <- String_as_OT.cmp_lt.
  change String_as_OT.cmp with String.compare.
  destruct (String.compare a b) eqn:E.
  - apply String.compare_eq_iff in E. tauto.
  - tauto.
  - split; [done|]. intros [->|?]; [|done].
    assert (String.compare b b = Eq) as H by (by apply String_as_OT.cmp_eq).
    congruence.
Qed.

#[global] Instance key_le_trans : Transitive key_le.
Proof.
  intros [k1 v1] [k2 v2] [k3 v3]. unfold key_le. simpl.
  rewrite !string_leb_spec.
  intros [->|H1] [->|H2]; eauto using String_as_OT.lt_trans.
Qed.

#[global] Instance key_le_total : Total key_le.
Proof. intros p q. apply String.leb_total. Qed.

Lemma key_le_antisym p q : key_le p q → key_le q p → p.1 = q.1.
Proof. apply String.leb_antisym. Qed.

Lemma freeze_dict_Permutation d : freeze_dict d ≡ₚ d.
Proof. apply merge_sort_Permutation. Qed.

Lemma freeze_dict_sorted d : StronglySorted key_le (freeze_dict d).
Proof. apply StronglySorted_merge_sort; apply _. Qed.

Lemma dict_wf_entry_inj (d : pydict) k v1 v2 :
  dict_wf d → (k, v1) ∈ d → (k, v2) ∈ d → v1 = v2.
Proof.
  unfold dict_wf. induction d as [|[k' v'] d IH]; simpl; intros Hnd H1 H2.
  - by apply elem_of_nil in H1.
  - apply NoDup_cons in Hnd as [Hk Hnd].
    apply elem_of_cons in H1 as [H1|H1], H2 as [H2|H2]; simplify_eq; auto.
    + exfalso. apply Hk. apply (list_elem_of_fmap_2 fst _ _ H2).
    + exfalso. apply Hk. apply (list_elem_of_fmap_2 fst _ _ H1).
Qed.

Lemma dict_wf_NoDup (d : pydict) : dict_wf d → NoDup d.
Proof. apply NoDup_fmap_1. Qed.

Lemma dict_wf_Permutation (a b : pydict) : a ≡ₚ b → dict_wf a → dict_wf b.
Proof. unfold dict_wf. intros E. by rewrite E. Qed.

Lemma same_pairs_Permutation (a b : pydict) :
  dict_wf a → dict_wf b → same_pairs a b ↔ a ≡ₚ b.
Proof.
  intros Ha Hb. split.
  - intros [H1 H2]. apply NoDup_Permutation; auto using dict_wf_NoDup.
    intros kv. split; [apply H1 | apply H2].
  - intros E. split; intros kv; by rewrite E.
Qed.

Lemma freeze_dict_Permutation_eq (a b : pydict) :
  dict_wf a → a ≡ₚ b → freeze_dict a = freeze_dict b.
Proof.
  intros Ha E.
  assert (freeze_dict a ≡ₚ freeze_dict b) as E'.
  { by rewrite !freeze_dict_Permutation. }
  apply (StronglySorted_unique_strong key_le); auto using freeze_dict_sorted.
  intros [k1 v1] [k2 v2] H1 H2 L1 L2.
  pose proof (key_le_antisym _ _ L1 L2) as Hk. simpl in Hk. subst k2.
  f_equal. apply (dict_wf_entry_inj a k1).
  - done.
  - by rewrite <- (freeze_dict_Permutation a).
  - by rewrite E, <- (freeze_dict_Permutation b).
Qed.

Lemma freeze_dict_same_pairs (a b : pydict) :
  freeze_dict a = freeze_dict b → same_pairs a b.
Proof.
  intros E. split; intros kv.
  - by rewrite <- (freeze_dict_Permutation a), E, freeze_dict_Permutation.
  - by rewrite <- (freeze_dict_Permutation b), <- E, freeze_dict_Permutation.
Qed.

(** C1.  [freeze_dict] forgets the insertion order and nothing else: two
    dictionaries with the same key-value pairs freeze to the same tuple,
    two dictionaries whose sets of pairs differ freeze to different tuples.
    The frozen tuple is a value of a countable type with decidable equality,
    so it can index a dictionary: an entry stored under the frozen form of
    one dictionary is found under the frozen form of any dictionary with the
    same pairs. *)
Theorem freeze_dict_canonical (m1 m2 : pydict) :
  dict_wf m1 → dict_wf m2 →
  (same_pairs m1 m2 → freeze_dict m1 = freeze_dict m2)
  ∧ (¬ same_pairs m1 m2 → freeze_dict m1 ≠ freeze_dict m2)
  ∧ (same_pairs m1 m2 →
     ∀ x : nat, ({[freeze_dict m1 := x]} : gmap frozen nat) !! freeze_dict m2 = Some x)
  ∧ decode (encode (freeze_dict m1)) = Some (freeze_dict m1).
Proof.
  intros H1 H2.
  assert (same_pairs m1 m2 → freeze_dict m1 = freeze_dict m2) as Heq.
  { intros H. apply freeze_dict_Permutation_eq; [done|].
    by apply same_pairs_Permutation. }
  split_and!.
  - exact Heq.
  - intros Hne E. apply Hne. by apply freeze_dict_same_pairs.
  - intros H x. rewrite (Heq H). apply lookup_singleton_eq.
  - apply decode_encode.
Qed.

Lemma freeze_dict_canonical_witness :
  let m1 := [("a", PInt 1); ("b", PInt 2)]%string in
  let m2 := [("b", PInt 2); ("a", PInt 1)]%string in
  (dict_wf m1 ∧ dict_wf m2 ∧ same_pairs m1 m2)
  ∧ freeze_dict m1 = freeze_dict m2.
Proof.
  intros m1 m2.
  assert (dict_wf m1) as H1 by decide_by_computation.
  assert (dict_wf m2) as H2 by decide_by_computation.
  assert (same_pairs m1 m2) as H by decide_by_computation.
  split; [done|].
  exact (proj1 (freeze_dict_canonical m1 m2 H1 H2) H).
Defined.

(** ** Dictionaries *)

Lemma dict_get_elem_of (d : pydict) k v :
  dict_wf d → dict_get d k = Some v ↔ (k, v) ∈ d.
Proof.
  unfold dict_wf. induction d as [|[k' v'] d IH]; simpl; intros Hnd.
  - split; [done|]. intros H. by apply elem_of_nil in H.
  - apply NoDup_cons in Hnd as [Hk Hnd]. rewrite elem_of_cons.
    case_decide as Hkk.
    + subst k'. split; [intros [= ->]; by left|].
      intros [[= ->]|Hin]; [done|].
      exfalso. apply Hk. apply (list_elem_of_fmap_2 fst _ _ Hin).
    + rewrite (IH Hnd). split; [by right|]. intros [[= -> ->]|?]; done.
Qed.

Lemma dict_set_fresh (d : pydict) k v :
  k ∉ d.*1 → dict_set d k v = d ++ [(k, v)].
Proof.
  induction d as [|[k' v'] d IH]; simpl; intros Hk; [done|].
  apply not_elem_of_cons in Hk as [Hne Hk].
  case_decide; [congruence|]. by rewrite IH.
Qed.

Lemma dict_set_keys (d : pydict) k v :
  k ∈ d.*1 → (dict_set d k v).*1 = d.*1.
Proof.
  induction d as [|[k' v'] d IH]; simpl; intros Hk.
  - by apply elem_of_nil in Hk.
  - case_decide as Hkk; simpl; [by subst|].
    apply elem_of_cons in Hk as [->|Hk]; [done|]. f_equal. by apply IH.
Qed.

Lemma dict_set_wf (d : pydict) k v : dict_wf d → dict_wf (dict_set d k v).
Proof.
  unfold dict_wf. intros Hd. destruct (decide (k ∈ d.*1)) as [Hk|Hk].
  - by rewrite dict_set_keys.
  - rewrite dict_set_fresh, fmap_app by done. simpl.
    apply NoDup_app. split_and!; [done| |apply NoDup_singleton].
    intros x Hx ->%list_elem_of_singleton. done.
Qed.

Lemma dict_ctor_wf (x : pairs) : dict_wf (dict_ctor x).
Proof.
  unfold dict_ctor.
  assert (dict_wf []) as Hnil by constructor.
  revert Hnil. generalize (@nil (string * pyval)) as acc.
  induction x as [|kv x IH]; simpl; intros acc Hacc; [done|].
  apply IH. by apply dict_set_wf.
Qed.

(** [dict(d)] of a dictionary is a copy of it: same entries, same order. *)
Lemma dict_ctor_copy (d : pydict) : dict_wf d → dict_ctor d = d.
Proof.
  unfold dict_ctor, dict_wf.
  change d with ([] ++ d) at 1 3.
  generalize (@nil (string * pyval)) as acc.
  induction d as [|[k v] d IH]; simpl; intros acc Hnd.
  - by rewrite app_nil_r.
  - rewrite dict_set_fresh.
    + rewrite (IH (acc ++ [(k, v)])); by rewrite <- app_assoc.
    + rewrite fmap_app in Hnd. apply NoDup_app in Hnd as (_ & Hdisj & _).
      intros Hk. apply (Hdisj _ Hk). simpl. by left.
Qed.

(** [==] on dictionaries decides whether they hold the same pairs. *)
Lemma dict_eqb_same_pairs (a b : pydict) :
  dict_wf a → dict_wf b → dict_eqb a b = true ↔ same_pairs a b.
Proof.
  intros Ha Hb. unfold dict_eqb.
  rewrite andb_true_iff, Nat.eqb_eq, forallb_forall.
  assert ((∀ kv, In kv a → bool_decide (dict_get b kv.1 = Some kv.2) = true)
          ↔ a ⊆ b) as ->.
  { split.
    - intros H [k v] Hin. apply (dict_get_elem_of b k v Hb).
      apply list_elem_of_In, H in Hin. by apply bool_decide_eq_true in Hin.
    - intros H [k v] Hin. apply bool_decide_eq_true. simpl.
      apply (dict_get_elem_of b k v Hb), H. by apply list_elem_of_In. }
  split.
  - intros [Hlen Hsub]. split; [done|].
    assert (a ≡ₚ b) as E.
    { apply submseteq_length_Permutation; [|lia].
      apply NoDup_submseteq; [by apply dict_wf_NoDup | exact Hsub]. }
    intros kv. by rewrite E.
  - intros H. split; [|by destruct H].
    apply Permutation_length. by apply same_pairs_Permutation.
Qed.

(** ** The properties of an item *)

(** Reading [args] always returns, and leaves the item as it was. *)
Lemma args_run request (self : Item) :
  Item.args request self = (Ok (resolved_args request self), self).
Proof.
  unfold resolved_args, outcome, Item.args, gets, mbind, Py_bind, mret, Py_ret.
  by destruct (_args self).
Qed.

Lemma resolved_args_wf request (self : Item) :
  dict_wf (resolved_args request self).
Proof.
  unfold resolved_args, outcome, Item.args, gets, mbind, Py_bind, mret, Py_ret.
  destruct (_args self); simpl; [constructor|apply dict_ctor_wf..].
Qed.

Lemma ident_run request (self : Item) :
  Item.ident request self = (Ok (identity_of request self), self).
Proof.
  unfold Item.ident, identity_of, mbind, Py_bind at 1. simpl.
  unfold Py_bind. by rewrite args_run.
Qed.

Lemma is_active_run request (self : Item) :
  Item.is_active request self =
  (Ok (bool_decide (_url self = None)
       && bool_decide (request_endpoint request = endpoint self)
       && match request_view_args request with
          | Some view_args => dict_eqb view_args (resolved_args request self)
          | None => false
          end), self).
Proof.
  unfold Item.is_active, mbind, Py_bind at 1. simpl.
  unfold Py_bind at 1. simpl. unfold Py_bind. by rewrite args_run.
Qed.

(** C6.  Reading [args] yields the empty mapping when no [args] was given,
    the conversion to a dictionary of what the function returns when [args]
    is a function (called without arguments, under the request at hand), and
    the conversion to a dictionary of [args] itself otherwise.  The read
    returns the item with its stored field as it was. *)
Theorem args_resolution request (self : Item) :
  Item.args request self =
  (Ok match _args self with
      | ArgsNone => []
      | ArgsCallable f => dict_ctor (f request)
      | ArgsMapping m => dict_ctor m
      end, self)
  ∧ _args (final (Item.args request) self) = _args self.
Proof.
  split.
  - unfold Item.args, gets, mbind, Py_bind, mret, Py_ret.
    by destruct (_args self).
  - unfold final. by rewrite args_run.
Qed.

(** C2.  [is_active] is true exactly when no literal url is stored, the
    endpoint of the request is the endpoint of the item and the view
    arguments of the request hold the same pairs as the resolved [args] of
    the item.  The read returns a boolean and the item unchanged, and its
    answer follows the request: the same item is active under one request
    and inactive under another. *)
Theorem is_active_iff request (self : Item) :
  request_wf request →
  (∃ b, Item.is_active request self = (Ok b, self))
  ∧ (Item.is_active request self = (Ok true, self)
     ↔ _url self = None
       ∧ request_endpoint request = endpoint self
       ∧ ∃ view_args, request_view_args request = Some view_args
                      ∧ same_pairs view_args (resolved_args request self))
  ∧ (∃ item r1 r2,
       Item.is_active r1 item = (Ok true, item)
       ∧ Item.is_active r2 item = (Ok false, item)).
Proof.
  intros Hwf. split_and!.
  - rewrite is_active_run. eauto.
  - rewrite is_active_run. split.
    + intros [= H]. apply andb_true_iff in H as [H Hargs].
      apply andb_true_iff in H as [Hurl Hep].
      apply bool_decide_eq_true in Hurl, Hep. split_and!; [done..|].
      destruct (request_view_args request) as [va|] eqn:Hva; [|done].
      exists va. split; [done|].
      by apply dict_eqb_same_pairs; [apply Hwf|apply resolved_args_wf|].
    + intros (Hurl & Hep & va & Hva & Hsame). do 2 f_equal.
      rewrite Hva. rewrite !andb_true_iff, !bool_decide_eq_true.
      split_and!; [done..|].
      by apply dict_eqb_same_pairs; [apply Hwf|apply resolved_args_wf|].
  - by exists item_about, request_about, request_home.
Qed.

Lemma is_active_iff_witness :
  request_wf request_about
  ∧ Item.is_active request_about item_about = (Ok true, item_about).
Proof.
  assert (request_wf request_about) as Hwf.
  { intros va [= <-]. constructor. }
  split; [done|].
  apply (proj1 (proj2 (is_active_iff request_about item_about Hwf))).
  split_and!; [reflexivity..|].
  exists []. split; [reflexivity|]. decide_by_computation.
Defined.

(** C3.  An item built with a literal url answers [url] with that literal,
    whatever [url_for] would have said, and is inactive under every
    request. *)
Theorem literal_url url_for request (self : Item) (u : string) :
  _url self = Some u →
  Item.url url_for request self = (Ok u, self)
  ∧ Item.is_active request self = (Ok false, self).
Proof.
  intros Hu. split.
  - unfold Item.url, gets, mbind, Py_bind at 1. by rewrite Hu.
  - rewrite is_active_run, Hu. done.
Qed.

Lemma literal_url_witness :
  Item.url (url_for_table ∅) request_about item_blog
    = (Ok "http://blog.example.org/"%string, item_blog)
  ∧ Item.is_active request_about item_blog = (Ok false, item_blog).
Proof. apply literal_url. reflexivity. Defined.

(** C7.  An item without a literal url answers [url] with what [url_for]
    answers for its endpoint and resolved [args]: the URL when there is one,
    and the very error [url_for] raised when it raised. *)
Theorem url_delegates url_for request (self : Item) :
  _url self = None →
  Item.url url_for request self
    = (url_for (endpoint self) (resolved_args request self), self)
  ∧ ∀ e, url_for (endpoint self) (resolved_args request self) = Raise e →
         Item.url url_for request self = (Raise e, self).
Proof.
  intros Hu.
  assert (Item.url url_for request self
          = (url_for (endpoint self) (resolved_args request self), self)) as E.
  { unfold Item.url, gets, mbind, Py_bind at 1. rewrite Hu. simpl.
    unfold Py_bind at 1. simpl. unfold Py_bind. by rewrite args_run. }
  split; [done|]. intros e He. by rewrite E, He.
Qed.

Lemma url_delegates_witness :
  let url_for := url_for_table {[ PStr "home" := "/"%string ]} in
  Item.url url_for no_request item_home = (Ok "/"%string, item_home)
  ∧ Item.url url_for no_request item_about
    = (Raise (BuildError (PStr "about")), item_about).
Proof.
  intros url_for. split.
  - exact (proj1 (url_delegates url_for no_request item_home eq_refl)).
  - exact (proj2 (url_delegates url_for no_request item_about eq_refl)
             (BuildError (PStr "about")) eq_refl).
Defined.



(** ** Python lists *)

Lemma list_position_spec (n : nat) (i : Z) :
  match list_position n i with
  | Some j => (j < n)%nat ∧ ¬ out_of_range n i
  | None => out_of_range n i
  end.
Proof.
  unfold list_position, out_of_range.
  destruct (Z.ltb_spec i 0).
  - destruct (Z.leb_spec 0 (i + Z.of_nat n)); simpl; [|lia].
    destruct (Z.ltb_spec (i + Z.of_nat n) (Z.of_nat n)); lia.
  - destruct (Z.leb_spec 0 i); simpl; [|lia].
    destruct (Z.ltb_spec i (Z.of_nat n)); lia.
Qed.

Lemma list_position_Some (n : nat) (i : Z) (j : nat) :
  list_position n i = Some j → (j < n)%nat ∧ ¬ out_of_range n i.
Proof.
  intros H. pose proof (list_position_spec n i) as Hs. by rewrite H in Hs.
Qed.

Lemma list_position_None (n : nat) (i : Z) :
  list_position n i = None ↔ out_of_range n i.
Proof.
  pose proof (list_position_spec n i) as Hs.
  destruct (list_position n i); [|done]. split; [done|].
  intros ?. by destruct Hs.
Qed.

Lemma insert_position_le (n : nat) (i : Z) : (insert_position n i ≤ n)%nat.
Proof. unfold insert_position. destruct (Z.ltb_spec i 0); lia. Qed.

Lemma list_inserted_length {A} (l : list A) (i : Z) (x : A) :
  length (list_inserted l i x) = S (length l).
Proof.
  unfold list_inserted. pose proof (insert_position_le (length l) i).
  rewrite length_app, length_take. simpl. rewrite length_drop. lia.
Qed.

Lemma list_inserted_Permutation {A} (l : list A) (i : Z) (x : A) :
  list_inserted l i x ≡ₚ x :: l.
Proof.
  unfold list_inserted.
  by rewrite <- Permutation_middle, take_drop.
Qed.

(** The element at a position splits the list around it. *)
Lemma list_split_at {A} (l : list A) (j : nat) (x : A) :
  l !! j = Some x →
  ∃ l1 l2, l = l1 ++ x :: l2
           ∧ delete j l = l1 ++ l2
           ∧ ∀ y, <[j:=y]> l = l1 ++ y :: l2.
Proof.
  intros Hj. exists (take j l), (drop (S j) l). split_and!.
  - by rewrite take_drop_middle.
  - by rewrite delete_take_drop.
  - intros y. rewrite insert_take_drop; [done|]. by eapply lookup_lt_Some.
Qed.

(** ** The methods of the collection, run *)

Ltac py_run :=
  unfold mbind, mret, Py_bind, Py_ret, gets, lift, modify; cbn beta iota.

Lemma ident_of_run request (item : Item) (c : ItemCollection) :
  ItemCollection.ident_of request item c = (Ok (identity_of request item), c).
Proof.
  unfold ItemCollection.ident_of, lift, outcome. by rewrite ident_run.
Qed.

#[global] Opaque ItemCollection.ident_of.

Lemma fits_converts (n : nat) (index : Z) :
  fits_ssize_t index → index_converts n index = true.
Proof.
  unfold fits_ssize_t, index_converts. intros [Hlo Hhi].
  apply andb_true_iff. split; [apply Z.leb_le|apply Z.leb_le]; lia.
Qed.

(** For a list that CPython can hold, the index converts exactly when it
    is in the signed 64-bit range. *)
Lemma index_converts_fits (n : nat) (index : Z) :
  Z.of_nat n ≤ ssize_t_max →
  index_converts n index = true ↔ fits_ssize_t index.
Proof.
  intros Hn. unfold fits_ssize_t, index_converts.
  rewrite andb_true_iff, !Z.leb_le.
  unfold ssize_t_min, ssize_t_max in *. lia.
Qed.

Lemma bounds_converts (n : nat) (index : Z) :
  - Z.of_nat n ≤ index ≤ Z.of_nat n → index_converts n index = true.
Proof.
  unfold index_converts. intros [Hlo Hhi].
  apply andb_true_iff. split; [apply Z.leb_le|apply Z.leb_le]; lia.
Qed.

Lemma insert_run request (index : Z) (item : Item) (c : ItemCollection) :
  index_converts (length (_items c)) index = true →
  ItemCollection.insert request index item c =
  (Ok tt, {| _items := list_inserted (_items c) index item;
             _items_mapping :=
               <[identity_of request item := item]> (_items_mapping c) |}).
Proof.
  intros Hfits.
  unfold ItemCollection.insert, ItemCollection.set_items,
    ItemCollection.set_items_mapping, list_insert.
  py_run. rewrite Hfits. cbn beta iota. by rewrite ident_of_run.
Qed.

Lemma insert_overflow_run request (index : Z) (item : Item)
    (c : ItemCollection) :
  index_converts (length (_items c)) index = false →
  ItemCollection.insert request index item c = (Raise OverflowError, c).
Proof.
  intros Hfits.
  unfold ItemCollection.insert, ItemCollection.set_items,
    ItemCollection.set_items_mapping, list_insert.
  py_run. by rewrite Hfits.
Qed.

Lemma append_run request (item : Item) (c : ItemCollection) :
  ItemCollection.append request item c =
  (Ok tt, {| _items := _items c ++ [item];
             _items_mapping :=
               <[identity_of request item := item]> (_items_mapping c) |}).
Proof.
  unfold ItemCollection.append, ItemCollection.__len__. py_run.
  rewrite insert_run by (apply bounds_converts; lia). do 2 f_equal.
  unfold list_inserted, insert_position.
  destruct (Z.ltb_spec (Z.of_nat (length (_items c))) 0); [lia|].
  rewrite Z.min_id, Nat2Z.id.
  by rewrite firstn_all, drop_all.
Qed.

Lemma getitem_int_run (i : Z) (c : ItemCollection) :
  ItemCollection.__getitem__ (Plain (PInt i)) c
  = (list_getitem (_items c) i, c).
Proof. done. Qed.

Lemma getitem_tuple_run endpoint (args : pydict) (c : ItemCollection) :
  ItemCollection.__getitem__ (Tuple endpoint args) c
  = (mapping_getitem (_items_mapping c) (endpoint, freeze_dict args), c).
Proof. done. Qed.

Lemma getitem_plain_run (v : pyval) (c : ItemCollection) :
  (∀ i, v ≠ PInt i) →
  ItemCollection.__getitem__ (Plain v) c
  = (mapping_getitem (_items_mapping c) (v, freeze_dict []), c).
Proof. intros Hv. destruct v; [done| |done]. by destruct (Hv z). Qed.

Lemma setitem_run request (i : Z) (item : Item) (c : ItemCollection) :
  ItemCollection.__setitem__ request (Plain (PInt i)) item c =
  match list_position (length (_items c)) i with
  | None => (Raise IndexError, c)
  | Some j =>
      match _items c !! j with
      | None => (Raise IndexError, c)
      | Some old_item =>
          match _items_mapping c !! identity_of request old_item with
          | None => (Raise KeyError, c)
          | Some _ =>
              (Ok tt,
               {| _items := <[j:=item]> (_items c);
                  _items_mapping :=
                    <[identity_of request item := item]>
                      (delete (identity_of request old_item) (_items_mapping c)) |})
          end
      end
  end.
Proof.
  unfold ItemCollection.__setitem__, ItemCollection.set_items,
    ItemCollection.set_items_mapping, list_getitem, list_setitem,
    mapping_delitem.
  py_run. unfold as_list_index.
  destruct (list_position (length (_items c)) i) as [j|] eqn:Hj; [|done].
  destruct (_items c !! j) as [old_item|]; [|done].
  rewrite ident_of_run.
  destruct (_items_mapping c !! identity_of request old_item); [|done].
  simpl. rewrite Hj. by rewrite ident_of_run.
Qed.

Lemma delitem_run request (i : Z) (c : ItemCollection) :
  ItemCollection.__delitem__ request (Plain (PInt i)) c =
  match list_position (length (_items c)) i with
  | None => (Raise IndexError, c)
  | Some j =>
      match _items c !! j with
      | None => (Raise IndexError, c)
      | Some item =>
          let c1 := {| _items := delete j (_items c);
                       _items_mapping := _items_mapping c |} in
          match _items_mapping c !! identity_of request item with
          | None => (Raise KeyError, c1)
          | Some _ =>
              (Ok tt,
               {| _items := delete j (_items c);
                  _items_mapping :=
                    delete (identity_of request item) (_items_mapping c) |})
          end
      end
  end.
Proof.
  unfold ItemCollection.__delitem__, ItemCollection.__getitem__,
    ItemCollection.set_items, ItemCollection.set_items_mapping,
    list_getitem, list_delitem, mapping_delitem.
  py_run. unfold as_list_index.
  destruct (list_position (length (_items c)) i) as [j|] eqn:Hj; [|done].
  destruct (_items c !! j) as [item|]; [|done].
  simpl. rewrite ?Hj. rewrite ident_of_run. simpl.
  by destruct (_items_mapping c !! identity_of request item).
Qed.

(** ** Insertion *)

(** [insert] does not accept every integer index: one that does not fit a
    C [ssize_t] makes [list.insert] raise [OverflowError], and the
    collection stays as it was, no longer than before. *)
Lemma insert_clamps_counterexample :
  outcome (ItemCollection.insert no_request (2 ^ 63) item_blog) menu3
    = Raise OverflowError
  ∧ final (ItemCollection.insert no_request (2 ^ 63) item_blog) menu3 = menu3
  ∧ length (_items (final (ItemCollection.insert no_request (2 ^ 63) item_blog)
                      menu3)) = 3%nat.
Proof. by vm_compute. Qed.

(** C10, amended.  [insert] accepts every integer index that fits a C
    [ssize_t], the signed 64-bit range.  It then never raises; the sequence
    grows by exactly one item; an index at or beyond the length puts the
    item last, an index below minus the length puts it first. *)
Theorem insert_clamps request (c : ItemCollection) (index : Z) (item : Item) :
  fits_ssize_t index →
  let n := length (_items c) in
  let c' := final (ItemCollection.insert request index item) c in
  outcome (ItemCollection.insert request index item) c = Ok tt
  ∧ length (_items c') = S n
  ∧ (Z.of_nat n ≤ index → _items c' = _items c ++ [item])
  ∧ (index < - Z.of_nat n → _items c' = item :: _items c).
Proof.
  intros Hfits n c'. subst c'. unfold outcome, final.
  rewrite insert_run by (by apply fits_converts). simpl.
  split_and!.
  - done.
  - apply list_inserted_length.
  - intros Hge. unfold list_inserted, insert_position. fold n.
    destruct (Z.ltb_spec index 0); [lia|].
    rewrite Z.min_r, Nat2Z.id by lia.
    subst n. by rewrite firstn_all, drop_all.
  - intros Hlt. unfold list_inserted, insert_position. fold n.
    destruct (Z.ltb_spec index 0); [|lia].
    by rewrite Z.max_l by lia.
Qed.

Lemma insert_clamps_witness :
  let c5 := final (ItemCollection.insert no_request 5 item_blog) menu3 in
  let c9 := final (ItemCollection.insert no_request (-9) item_blog) menu3 in
  (3 ≤ 5 ∧ -9 < -3)
  ∧ _items c5 = [item_home; item_about; item_contact; item_blog]
  ∧ _items c9 = [item_blog; item_home; item_about; item_contact].
Proof.
  intros c5 c9. split; [lia|].
  assert (fits_ssize_t 5) as H5 by decide_by_computation.
  assert (fits_ssize_t (-9)) as H9 by decide_by_computation.
  split.
  - apply (insert_clamps no_request menu3 5 item_blog H5). by vm_compute.
  - apply (insert_clamps no_request menu3 (-9) item_blog H9). by vm_compute.
Defined.

(** Items with the same endpoint whose resolved [args] hold the same pairs,
    in whatever key order, have the same identity. *)
Lemma identity_same_pairs request (a b : Item) :
  endpoint a = endpoint b →
  same_pairs (resolved_args request a) (resolved_args request b) →
  identity_of request a = identity_of request b.
Proof.
  intros Hep Hsame. unfold identity_of. rewrite Hep. f_equal.
  apply freeze_dict_Permutation_eq; [apply resolved_args_wf|].
  apply same_pairs_Permutation; auto using resolved_args_wf.
Qed.

(** C5.  Inserting, at an index that [list.insert] takes (one that fits a C
    [ssize_t]), an item whose identity is that of an item already in the
    sequence raises nothing and keeps both in the sequence, one item longer,
    while the identity dictionary now answers that identity with the new
    item, through [_items_mapping] and through [c[endpoint, args]] alike. *)
Theorem insert_duplicate_identity request (c : ItemCollection) (index : Z)
    (old new : Item) :
  fits_ssize_t index →
  old ∈ _items c →
  identity_of request new = identity_of request old →
  let c' := final (ItemCollection.insert request index new) c in
  outcome (ItemCollection.insert request index new) c = Ok tt
  ∧ _items c' ≡ₚ new :: _items c
  ∧ old ∈ _items c' ∧ new ∈ _items c'
  ∧ length (_items c') = S (length (_items c))
  ∧ _items_mapping c' !! identity_of request old = Some new
  ∧ outcome (ItemCollection.__getitem__
               (Tuple (endpoint old) (resolved_args request old))) c'
    = Ok new.
Proof.
  intros Hfits Hold Hid c'. subst c'. unfold outcome, final.
  rewrite insert_run by (by apply fits_converts). simpl.
  pose proof (list_inserted_Permutation (_items c) index new) as Hperm.
  assert (<[identity_of request new := new]> (_items_mapping c)
            !! identity_of request old = Some new) as Hlook.
  { rewrite Hid. apply lookup_insert_eq. }
  split_and!.
  - done.
  - done.
  - rewrite Hperm. by right.
  - rewrite Hperm. by left.
  - apply list_inserted_length.
  - done.
  - unfold mapping_getitem. fold (identity_of request old). by rewrite Hlook.
Qed.

Lemma insert_duplicate_identity_witness :
  let c := (ItemCollection.__init__ no_request [item_x_ab]).2 in
  let c' := final (ItemCollection.insert no_request 1 item_x_ba) c in
  _items c' = [item_x_ab; item_x_ba]
  ∧ outcome (ItemCollection.__getitem__
               (Tuple (PStr "x") [("a", PInt 1); ("b", PInt 2)]%string)) c'
    = Ok item_x_ba.
Proof.
  intros c c'. split; [reflexivity|].
  assert (fits_ssize_t 1) as Hfits by decide_by_computation.
  assert (item_x_ab ∈ _items c) as Hin by (by left).
  assert (identity_of no_request item_x_ba = identity_of no_request item_x_ab)
    as Hid by (by vm_compute).
  exact (proj2 (proj2 (proj2 (proj2 (proj2 (proj2
    (insert_duplicate_identity no_request c 1 item_x_ab item_x_ba
       Hfits Hin Hid))))))).
Defined.

(** ** Failing lookups *)

(** C8.  A lookup by identity that finds no entry raises [KeyError]; a
    replacement or a deletion at an index outside the sequence raises
    [IndexError]; and each of these calls leaves the sequence and the
    identity dictionary exactly as they were. *)
Theorem failed_lookup_leaves_unchanged request (c : ItemCollection) :
  (∀ endpoint args,
     _items_mapping c !! (endpoint, freeze_dict args) = None →
     ItemCollection.__getitem__ (Tuple endpoint args) c = (Raise KeyError, c))
  ∧ (∀ name : string,
     _items_mapping c !! (PStr name, freeze_dict []) = None →
     ItemCollection.__getitem__ (Plain (PStr name)) c = (Raise KeyError, c))
  ∧ (∀ index item,
     out_of_range (length (_items c)) index →
     ItemCollection.__setitem__ request (Plain (PInt index)) item c
     = (Raise IndexError, c))
  ∧ (∀ index,
     out_of_range (length (_items c)) index →
     ItemCollection.__delitem__ request (Plain (PInt index)) c
     = (Raise IndexError, c)).
Proof.
  split_and!.
  - intros endpoint args H. rewrite getitem_tuple_run.
    unfold mapping_getitem. by rewrite H.
  - intros name H. rewrite getitem_plain_run by done.
    unfold mapping_getitem. by rewrite H.
  - intros index item H%list_position_None. by rewrite setitem_run, H.
  - intros index H%list_position_None. by rewrite delitem_run, H.
Qed.

Lemma failed_lookup_leaves_unchanged_witness :
  ItemCollection.__getitem__ (Tuple (PStr "blog") []) menu3 = (Raise KeyError, menu3)
  ∧ ItemCollection.__getitem__ (Plain (PStr "blog")) menu3 = (Raise KeyError, menu3)
  ∧ ItemCollection.__setitem__ no_request (Plain (PInt 3)) item_blog menu3
    = (Raise IndexError, menu3)
  ∧ ItemCollection.__delitem__ no_request (Plain (PInt (-4))) menu3
    = (Raise IndexError, menu3).
Proof.
  destruct (failed_lookup_leaves_unchanged no_request menu3)
    as (Htuple & Hname & Hset & Hdel).
  split_and!.
  - apply Htuple. by vm_compute.
  - apply Hname. by vm_compute.
  - apply Hset. right. by vm_compute.
  - apply Hdel. left. by vm_compute.
Defined.

(** ** The two indexes stay in step *)

Lemma consistent_intro request (c : ItemCollection) :
  NoDup (identities request c) →
  dom (_items_mapping c) = list_to_set (identities request c) →
  consistent request c ∧ distinct request c.
Proof.
  intros Hnd Hdom. split; [|done]. split; [done|].
  rewrite <- size_dom, Hdom, size_list_to_set by done.
  unfold identities. by rewrite length_fmap.
Qed.

Lemma insert_keeps request (c : ItemCollection) (index : Z) (item : Item) :
  distinct request c → consistent request c →
  identity_of request item ∉ identities request c →
  let c' := final (ItemCollection.insert request index item) c in
  consistent request c' ∧ distinct request c'.
Proof.
  intros Hnd Hc Hnew c'. subst c'. unfold final.
  destruct (index_converts (length (_items c)) index) eqn:Hfits;
    [|by rewrite insert_overflow_run].
  destruct Hc as [Hdom _]. rewrite insert_run by done.
  simpl.
  assert (identities request
            {| _items := list_inserted (_items c) index item;
               _items_mapping :=
                 <[identity_of request item := item]> (_items_mapping c) |}
          ≡ₚ identity_of request item :: identities request c) as E.
  { unfold identities. simpl. by rewrite list_inserted_Permutation. }
  apply consistent_intro.
  - rewrite E. by constructor.
  - simpl. rewrite dom_insert_L, Hdom.
    apply set_eq. intros k.
    rewrite elem_of_union, !elem_of_list_to_set, E, elem_of_cons,
      elem_of_singleton. tauto.
Qed.

Lemma identities_mapped request (c : ItemCollection) (j : nat) (item : Item) :
  consistent request c → _items c !! j = Some item →
  is_Some (_items_mapping c !! identity_of request item).
Proof.
  intros [Hdom _] Hj. apply elem_of_dom. rewrite Hdom.
  apply elem_of_list_to_set. unfold identities.
  apply list_elem_of_fmap_2. by eapply list_elem_of_lookup_2.
Qed.

Lemma setitem_keeps request (c : ItemCollection) (index : Z) (item : Item) :
  distinct request c → consistent request c →
  identity_of request item ∉ identities request c →
  let c' := final (ItemCollection.__setitem__ request (Plain (PInt index)) item) c in
  consistent request c' ∧ distinct request c'.
Proof.
  intros Hnd Hc Hnew c'. subst c'. unfold final. rewrite setitem_run.
  destruct (list_position (length (_items c)) index) as [j|]; [|done].
  destruct (_items c !! j) as [old_item|] eqn:Hj; [|done].
  destruct (identities_mapped request c j old_item Hc Hj) as [x ->]. simpl.
  destruct Hc as [Hdom _].
  destruct (list_split_at _ _ _ Hj) as (l1 & l2 & Hl & _ & Hset).
  unfold distinct, identities in *. rewrite Hl in Hnd, Hnew, Hdom.
  rewrite fmap_app, fmap_cons in Hnd, Hnew, Hdom.
  apply NoDup_app in Hnd as (Hnd1 & Hdisj & [Hold Hnd2]%NoDup_cons).
  apply consistent_intro; unfold identities; simpl; rewrite Hset.
  - rewrite fmap_app, fmap_cons. apply NoDup_app. split_and!; [done|..].
    + intros k Hk [->|Hk2]%elem_of_cons.
      * apply Hnew. apply elem_of_app. by left.
      * apply (Hdisj k Hk). by right.
    + apply NoDup_cons. split; [|done].
      intros Hk. apply Hnew. apply elem_of_app. right. by right.
  - rewrite dom_insert_L, dom_delete_L, Hdom, fmap_app, fmap_cons.
    apply set_eq. intros k.
    rewrite elem_of_union, elem_of_difference, !elem_of_list_to_set,
      !elem_of_app, !elem_of_cons, !elem_of_singleton.
    split.
    + intros [->|[[H|[->|H]] Hne]]; tauto.
    + intros [H|[->|H]]; [|tauto|].
      * right. split; [tauto|]. intros ->. apply (Hdisj _ H). by left.
      * right. split; [tauto|]. by intros ->.
Qed.

Lemma delitem_keeps request (c : ItemCollection) (index : Z) :
  distinct request c → consistent request c →
  let c' := final (ItemCollection.__delitem__ request (Plain (PInt index))) c in
  consistent request c' ∧ distinct request c'.
Proof.
  intros Hnd Hc c'. subst c'. unfold final. rewrite delitem_run.
  destruct (list_position (length (_items c)) index) as [j|]; [|done].
  destruct (_items c !! j) as [item|] eqn:Hj; [|done].
  destruct (identities_mapped request c j item Hc Hj) as [x ->]. simpl.
  destruct Hc as [Hdom _].
  destruct (list_split_at _ _ _ Hj) as (l1 & l2 & Hl & Hdel & _).
  unfold distinct, identities in *. rewrite Hl in Hnd, Hdom.
  rewrite fmap_app, fmap_cons in Hnd, Hdom.
  apply NoDup_app in Hnd as (Hnd1 & Hdisj & [Hold Hnd2]%NoDup_cons).
  apply consistent_intro; unfold identities; simpl; rewrite Hdel.
  - rewrite fmap_app. apply NoDup_app. split_and!; [done| |done].
    intros k Hk Hk2. apply (Hdisj k Hk). by right.
  - rewrite dom_delete_L, Hdom, fmap_app.
    apply set_eq. intros k.
    rewrite elem_of_difference, !elem_of_list_to_set,
      !elem_of_app, !elem_of_cons, elem_of_singleton.
    split.
    + intros [[H|[->|H]] Hne]; tauto.
    + intros [H|H].
      * split; [tauto|]. intros ->. apply (Hdisj _ H). by left.
      * split; [tauto|]. by intros ->.
Qed.

Lemma append_keeps request (c : ItemCollection) (item : Item) :
  distinct request c → consistent request c →
  identity_of request item ∉ identities request c →
  let c' := final (ItemCollection.append request item) c in
  consistent request c' ∧ distinct request c'
  ∧ identities request c' = identities request c ++ [identity_of request item].
Proof.
  intros Hnd [Hdom _] Hnew c'. subst c'. unfold final. rewrite append_run.
  simpl.
  assert (identities request
            {| _items := _items c ++ [item];
               _items_mapping :=
                 <[identity_of request item := item]> (_items_mapping c) |}
          = identities request c ++ [identity_of request item]) as E.
  { unfold identities. simpl. by rewrite fmap_app. }
  rewrite E. split_and!; [..|done]; apply consistent_intro; rewrite ?E.
  - apply NoDup_app. split_and!; [done| |apply NoDup_singleton].
    by intros k Hk ->%list_elem_of_singleton.
  - simpl. rewrite dom_insert_L, Hdom.
    apply set_eq. intros k.
    rewrite elem_of_union, !elem_of_list_to_set, elem_of_app,
      list_elem_of_singleton, elem_of_singleton. tauto.
  - apply NoDup_app. split_and!; [done| |apply NoDup_singleton].
    by intros k Hk ->%list_elem_of_singleton.
  - simpl. rewrite dom_insert_L, Hdom.
    apply set_eq. intros k.
    rewrite elem_of_union, !elem_of_list_to_set, elem_of_app,
      list_elem_of_singleton, elem_of_singleton. tauto.
Qed.

Lemma extend_keeps request (items : list Item) (c : ItemCollection) :
  distinct request c → consistent request c →
  NoDup (identity_of request <$> items) →
  Forall (λ item, identity_of request item ∉ identities request c) items →
  let c' := final (ItemCollection.extend request items) c in
  consistent request c' ∧ distinct request c'.
Proof.
  revert c. induction items as [|v items IH]; intros c Hnd Hc Hnew Hfresh.
  all: rewrite Forall_forall in Hfresh.
  - done.
  - simpl. unfold final. simpl. unfold mbind, Py_bind.
    assert (identity_of request v ∉ identities request c) as Hv.
    { apply Hfresh. by left. }
    destruct (append_keeps request c v Hnd Hc Hv) as (Hc1 & Hnd1 & Hids).
    unfold final in Hc1, Hnd1, Hids.
    rewrite append_run in *. cbn [snd] in *.
    rewrite fmap_cons in Hnew. apply NoDup_cons in Hnew as [Hv' Hnew].
    apply (IH _ Hnd1 Hc1 Hnew).
    apply Forall_forall. intros item Hitem. rewrite Hids. intros [Hk|Hk%list_elem_of_singleton]%elem_of_app.
    + apply (Hfresh item); [by right|done].
    + apply Hv'. rewrite <- Hk. by apply list_elem_of_fmap_2.
Qed.

(** C4.  Starting from a collection whose items have pairwise different
    identities and whose two indexes agree (the keys of the dictionary are
    the identities of the sequence, and both have the same size), every call
    among [c[i] = item], [del c[i]], [append], [extend] and [insert] that
    brings in no identity already present leaves a collection whose two
    indexes agree again, with pairwise different identities.  The statement
    is about the collection the call leaves behind, whether it returned or
    raised. *)
Theorem mutation_keeps_consistent request (c : ItemCollection) (op : mutation) :
  distinct request c → consistent request c → brings_new request c op →
  let c' := final (run request op) c in
  consistent request c' ∧ distinct request c'.
Proof.
  intros Hnd Hc [Hnew Hfresh]. rewrite Forall_forall in Hfresh.
  destruct op as [index item|index|item|items|index item]; simpl in *.
  - apply setitem_keeps; [done..|]. apply Hfresh. by left.
  - by apply delitem_keeps.
  - assert (identity_of request item ∉ identities request c) as Hitem.
    { apply Hfresh. by left. }
    destruct (append_keeps request c item Hnd Hc Hitem) as (? & ? & _).
    done.
  - apply extend_keeps; [done..|]. by apply Forall_forall.
  - apply insert_keeps; [done..|]. apply Hfresh. by left.
Qed.

Lemma mutation_keeps_consistent_witness :
  let op := Extend [item_blog; item_x_ab] in
  (distinct no_request menu3 ∧ consistent no_request menu3
   ∧ brings_new no_request menu3 op)
  ∧ consistent no_request (final (run no_request op) menu3).
Proof.
  intros op.
  assert (distinct no_request menu3) as Hnd by decide_by_computation.
  assert (consistent no_request menu3) as Hc by decide_by_computation.
  assert (brings_new no_request menu3 op) as Hnew by decide_by_computation.
  split; [done|].
  exact (proj1 (mutation_keeps_consistent no_request menu3 op Hnd Hc Hnew)).
Defined.

(** ** The menu of three items, step by step *)

Example freeze_dict_sorts_by_key :
  freeze_dict [("b", PInt 2); ("a", PInt 1)]%string
  = [("a", PInt 1); ("b", PInt 2)]%string.
Proof. by vm_compute. Qed.

Example dict_ctor_last_value_wins :
  dict_ctor [("a", PInt 1); ("b", PInt 2); ("a", PInt 3)]%string
  = [("a", PInt 3); ("b", PInt 2)]%string.
Proof. reflexivity. Qed.

Example menu3_built :
  (ItemCollection.__init__ no_request [item_home; item_about; item_contact]).1
  = Ok tt
  ∧ outcome ItemCollection.__len__ menu3 = Ok 3%nat
  ∧ outcome (ItemCollection.__getitem__ (Plain (PInt 1))) menu3 = Ok item_about
  ∧ outcome (ItemCollection.__getitem__ (Plain (PInt (-1)))) menu3 = Ok item_contact
  ∧ outcome (ItemCollection.__getitem__ (Plain (PStr "contact"))) menu3
    = Ok item_contact
  ∧ outcome (ItemCollection.__getitem__ (Tuple (PStr "contact") [])) menu3
    = Ok item_contact.
Proof. by vm_compute. Qed.

Example menu3_delete_about :
  let c := final (ItemCollection.__delitem__ no_request (Plain (PInt 1))) menu3 in
  outcome (ItemCollection.__delitem__ no_request (Plain (PInt 1))) menu3 = Ok tt
  ∧ _items c = [item_home; item_contact]
  ∧ outcome (ItemCollection.__getitem__ (Plain (PStr "about"))) c = Raise KeyError
  ∧ outcome (ItemCollection.__getitem__ (Plain (PInt 1))) c = Ok item_contact.
Proof. by vm_compute. Qed.

Example menu3_replace_about :
  let c := final (ItemCollection.__setitem__ no_request (Plain (PInt 1)) item_blog) menu3 in
  _items c = [item_home; item_blog; item_contact]
  ∧ outcome (ItemCollection.__getitem__ (Plain (PStr "about"))) c = Raise KeyError
  ∧ outcome (ItemCollection.__getitem__ (Plain (PStr "blog"))) c = Ok item_blog.
Proof. by vm_compute. Qed.

(** Deleting by name finds the item and then fails on the list, which takes
    integer subscripts only; nothing has been removed by then. *)
Example menu3_delete_by_name :
  ItemCollection.__delitem__ no_request (Plain (PStr "about")) menu3
  = (Raise TypeError, menu3).
Proof. by vm_compute. Qed.

(** A function given as [args] is called at each read, under the request of
    that moment. *)
Example callable_args_follow_request :
  let from_request (r : Request) := default [] (request_view_args r) in
  let item :=
    Item__init__ (PStr "Page") (PStr "page") (ArgsCallable from_request) None in
  let r1 := {| request_endpoint := PStr "page";
               request_view_args := Some [("id", PInt 1)]%string |} in
  let r2 := {| request_endpoint := PStr "page";
               request_view_args := Some [("id", PInt 2)]%string |} in
  resolved_args r1 item = [("id", PInt 1)]%string
  ∧ resolved_args r2 item = [("id", PInt 2)]%string
  ∧ Item.is_active r1 item = (Ok true, item).
Proof. by vm_compute. Qed.

(** * Further properties of the collection and its items *)

(** ** More on Python lists *)

Lemma list_position_nonneg (n : nat) (i : Z) :
  0 ≤ i →
  list_position n i = if decide (i < Z.of_nat n) then Some (Z.to_nat i) else None.
Proof.
  intros Hi. unfold list_position.
  destruct (Z.ltb_spec i 0); [lia|].
  destruct (Z.leb_spec 0 i); [|lia]. simpl.
  destruct (Z.ltb_spec i (Z.of_nat n)); case_decide; done || lia.
Qed.

Lemma list_position_negative (n : nat) (i : Z) :
  - Z.of_nat n ≤ i < 0 → list_position n i = list_position n (i + Z.of_nat n).
Proof.
  intros Hi. rewrite (list_position_nonneg n (i + Z.of_nat n)) by lia.
  unfold list_position.
  destruct (Z.ltb_spec i 0); [|lia].
  destruct (Z.leb_spec 0 (i + Z.of_nat n)); [|lia]. simpl.
  destruct (Z.ltb_spec (i + Z.of_nat n) (Z.of_nat n)); case_decide; done || lia.
Qed.

Lemma list_getitem_nat {A} (l : list A) (j : nat) :
  list_getitem l (Z.of_nat j)
  = match l !! j with Some x => Ok x | None => Raise IndexError end.
Proof.
  unfold list_getitem. rewrite list_position_nonneg by lia.
  case_decide as Hj; rewrite ?Nat2Z.id; [done|].
  rewrite lookup_ge_None_2; [done|lia].
Qed.

Lemma list_inserted_in_range {A} (l : list A) (i : Z) (x : A) :
  0 ≤ i ≤ Z.of_nat (length l) →
  list_inserted l i x = take (Z.to_nat i) l ++ x :: drop (Z.to_nat i) l.
Proof.
  intros Hi. unfold list_inserted, insert_position.
  destruct (Z.ltb_spec i 0); [lia|]. by rewrite Z.min_l by lia.
Qed.

Lemma list_inserted_negative {A} (l : list A) (i : Z) (x : A) :
  - Z.of_nat (length l) ≤ i < 0 →
  list_inserted l i x = list_inserted l (i + Z.of_nat (length l)) x.
Proof.
  intros Hi. rewrite (list_inserted_in_range l (i + _)) by lia.
  unfold list_inserted, insert_position.
  destruct (Z.ltb_spec i 0); [|lia]. by rewrite Z.max_r by lia.
Qed.

(** ** Building a collection *)

Lemma extend_run request (values : list Item) (c : ItemCollection) :
  ItemCollection.extend request values c =
  (Ok tt, {| _items := _items c ++ values;
             _items_mapping :=
               foldl (λ m v, <[identity_of request v := v]> m)
                 (_items_mapping c) values |}).
Proof.
  revert c. induction values as [|v values IH]; intros c.
  - simpl. unfold mret, Py_ret. rewrite app_nil_r. by destruct c.
  - simpl. unfold mbind, Py_bind. rewrite append_run, IH. simpl.
    by rewrite <- app_assoc.
Qed.

Lemma fold_index_other (request : Request) (values : list Item)
    (m : gmap identity Item) (k : identity) :
  k ∉ identity_of request <$> values →
  foldl (λ m v, <[identity_of request v := v]> m) m values !! k = m !! k.
Proof.
  revert m. induction values as [|v values IH]; intros m Hk; [done|].
  rewrite fmap_cons in Hk. apply not_elem_of_cons in Hk as [Hne Hk].
  simpl. rewrite IH by done. by rewrite lookup_insert_ne.
Qed.

Lemma fold_index_found (request : Request) (values : list Item)
    (m : gmap identity Item) (v : Item) :
  NoDup (identity_of request <$> values) → v ∈ values →
  foldl (λ m v, <[identity_of request v := v]> m) m values
    !! identity_of request v = Some v.
Proof.
  revert m. induction values as [|w values IH]; intros m Hnd Hv.
  - by apply elem_of_nil in Hv.
  - rewrite fmap_cons in Hnd. apply NoDup_cons in Hnd as [Hw Hnd].
    simpl. apply elem_of_cons in Hv as [->|Hv].
    + rewrite fold_index_other by done. apply lookup_insert_eq.
    + by apply IH.
Qed.

(** X1.  Building a collection from a sequence of items always succeeds and
    keeps the sequence as it is, duplicates included: [_items] is the
    sequence, [len] is its length, iteration yields it, and [c[j]] is its
    [j]-th item. *)
Theorem init_in_order (request : Request) (values : list Item) :
  let c := (ItemCollection.__init__ request values).2 in
  (ItemCollection.__init__ request values).1 = Ok tt
  ∧ _items c = values
  ∧ outcome ItemCollection.__len__ c = Ok (length values)
  ∧ outcome ItemCollection.__iter__ c = Ok values
  ∧ ∀ (j : nat) item, values !! j = Some item →
      outcome (ItemCollection.__getitem__ (Plain (PInt (Z.of_nat j)))) c
      = Ok item.
Proof.
  unfold ItemCollection.__init__. rewrite extend_run. cbn [fst snd].
  split_and!; try done.
  intros j item Hj. unfold outcome. rewrite getitem_int_run. simpl.
  by rewrite list_getitem_nat, Hj.
Qed.

Lemma init_in_order_witness :
  outcome (ItemCollection.__getitem__ (Plain (PInt 1))) menu3 = Ok item_about.
Proof.
  exact (proj2 (proj2 (proj2 (proj2
    (init_in_order no_request [item_home; item_about; item_contact]))))
    1%nat item_about eq_refl).
Defined.

(** X2.  A collection built from items with pairwise different
    identities has its two indexes in agreement, and every item is found
    again under [c[endpoint, args]] with its own endpoint and arguments. *)
Theorem init_indexes (request : Request) (values : list Item) :
  NoDup (identity_of request <$> values) →
  let c := (ItemCollection.__init__ request values).2 in
  consistent request c
  ∧ distinct request c
  ∧ ∀ item, item ∈ values →
      outcome (ItemCollection.__getitem__
                 (Tuple (endpoint item) (resolved_args request item))) c
      = Ok item.
Proof.
  intros Hnd c.
  assert (consistent request c ∧ distinct request c) as [Hc Hd].
  { apply (extend_keeps request values ItemCollection.empty).
    - constructor.
    - split; [|done]. simpl. by rewrite dom_empty_L.
    - done.
    - apply Forall_forall. intros item _ Hin. by apply elem_of_nil in Hin. }
  split_and!; [done..|].
  intros item Hin. subst c. unfold ItemCollection.__init__.
  rewrite extend_run. unfold outcome. rewrite getitem_tuple_run. simpl.
  unfold mapping_getitem. fold (identity_of request item).
  by rewrite fold_index_found.
Qed.

Lemma init_indexes_witness :
  let values := [item_home; item_about; item_contact] in
  NoDup (identity_of no_request <$> values)
  ∧ outcome (ItemCollection.__getitem__ (Tuple (PStr "about") []))
      (ItemCollection.__init__ no_request values).2
    = Ok item_about.
Proof.
  intros values.
  assert (NoDup (identity_of no_request <$> values)) as Hnd
    by decide_by_computation.
  split; [done|].
  refine (proj2 (proj2 (init_indexes no_request values Hnd)) item_about _).
  right. by left.
Defined.

(** ** Insertion, looked up *)

(** X3.  After [insert(index, item)], for an index that fits a C [ssize_t]
    and whatever the collection held, [c[endpoint, args]] answers [item] for
    the item's endpoint and any dictionary holding the pairs of its resolved
    [args], in any key order; when those are empty, [c[endpoint]] answers it
    too. *)
Theorem insert_then_lookup (request : Request) (c : ItemCollection)
    (index : Z) (item : Item) (args : pydict) :
  fits_ssize_t index →
  dict_wf args → same_pairs args (resolved_args request item) →
  let c' := final (ItemCollection.insert request index item) c in
  outcome (ItemCollection.__getitem__ (Tuple (endpoint item) args)) c' = Ok item
  ∧ (resolved_args request item = [] → (∀ i, endpoint item ≠ PInt i) →
     outcome (ItemCollection.__getitem__ (Plain (endpoint item))) c' = Ok item).
Proof.
  intros Hfits Hwf Hsame c'. subst c'. unfold final, outcome.
  rewrite insert_run by (by apply fits_converts).
  cbn [snd].
  assert (freeze_dict args = freeze_dict (resolved_args request item)) as E.
  { apply freeze_dict_Permutation_eq; [done|].
    apply same_pairs_Permutation; auto using resolved_args_wf. }
  split.
  - rewrite getitem_tuple_run. simpl. unfold mapping_getitem. rewrite E.
    fold (identity_of request item). by rewrite lookup_insert_eq.
  - intros Hnil Hep. rewrite getitem_plain_run by done. simpl.
    unfold mapping_getitem. rewrite <- Hnil.
    fold (identity_of request item). by rewrite lookup_insert_eq.
Qed.

Lemma insert_then_lookup_witness :
  let c' := final (ItemCollection.insert no_request 0 item_x_ab) menu3 in
  outcome (ItemCollection.__getitem__
             (Tuple (PStr "x") [("b", PInt 2); ("a", PInt 1)]%string)) c'
  = Ok item_x_ab.
Proof.
  intros c'.
  refine (proj1 (insert_then_lookup no_request menu3 0 item_x_ab
                   [("b", PInt 2); ("a", PInt 1)]%string _ _ _)).
  - decide_by_computation.
  - decide_by_computation.
  - decide_by_computation.
Defined.

(** X4.  Where [insert] puts the item.  With [0 <= index <= n] the item
    is at [index] afterwards, the items before it keep their positions and
    the items from [index] on move up by one.  With [-n <= index < 0] the
    item goes before the item that index designated, so that it is found at
    [index - 1] afterwards: [insert(-1, x)] does not append. *)
Theorem insert_positions (request : Request) (c : ItemCollection)
    (index : Z) (item : Item) :
  let n := Z.of_nat (length (_items c)) in
  let c' := final (ItemCollection.insert request index item) c in
  (0 ≤ index ≤ n →
     item_at index c' = Ok item
     ∧ (∀ j, 0 ≤ j < index → item_at j c' = item_at j c)
     ∧ (∀ j, index ≤ j < n → item_at (j + 1) c' = item_at j c))
  ∧ (- n ≤ index < 0 → item_at (index - 1) c' = Ok item).
Proof.
  intros n c'.
  assert (∀ p : nat, (p ≤ length (_items c))%nat →
            _items c' = take p (_items c) ++ item :: drop p (_items c) →
            item_at (Z.of_nat p) c' = Ok item
            ∧ (∀ j, 0 ≤ j < Z.of_nat p → item_at j c' = item_at j c)
            ∧ (∀ j, Z.of_nat p ≤ j < n → item_at (j + 1) c' = item_at j c))
    as Hat.
  { intros p Hp Hitems. unfold item_at, outcome.
    setoid_rewrite getitem_int_run. simpl. split_and!.
    - rewrite list_getitem_nat, Hitems.
      rewrite lookup_app_r by (rewrite length_take; lia).
      rewrite length_take.
      by replace (p - p `min` length (_items c))%nat with 0%nat by lia.
    - intros j Hj. rewrite <- (Z2Nat.id j) by lia.
      rewrite !list_getitem_nat, Hitems.
      rewrite lookup_app_l by (rewrite length_take; lia).
      by rewrite lookup_take_lt by lia.
    - intros j Hj. replace (j + 1) with (Z.of_nat (S (Z.to_nat j))) by lia.
      rewrite <- (Z2Nat.id j) at 2 by lia.
      rewrite !list_getitem_nat, Hitems.
      rewrite lookup_app_r by (rewrite length_take; lia).
      rewrite length_take.
      replace (S (Z.to_nat j) - p `min` length (_items c))%nat
        with (S (Z.to_nat j - p)) by lia.
      simpl. rewrite lookup_drop.
      by replace (p + (Z.to_nat j - p))%nat with (Z.to_nat j) by lia. }
  assert (- n ≤ index ≤ n → _items c' = list_inserted (_items c) index item)
    as Hc'.
  { intros Hi. subst c'. unfold final.
    by rewrite insert_run by (apply bounds_converts; subst n; lia). }
  split.
  - intros Hi.
    destruct (Hat (Z.to_nat index)) as (H1 & H2 & H3).
    + subst n. lia.
    + by rewrite Hc', list_inserted_in_range by (subst n; lia).
    + rewrite Z2Nat.id in * by lia. done.
  - intros Hi. unfold item_at, outcome.
    rewrite getitem_int_run. simpl. rewrite Hc' by lia.
    unfold list_getitem. rewrite list_inserted_length.
    rewrite list_position_negative by lia.
    rewrite list_position_nonneg by lia.
    case_decide; [|lia].
    rewrite list_inserted_negative, list_inserted_in_range by (subst n; lia).
    fold n.
    replace (Z.to_nat (index - 1 + Z.of_nat (S (length (_items c)))))
      with (Z.to_nat (index + n)) by (subst n; lia).
    rewrite lookup_app_r by (rewrite length_take; subst n; lia).
    rewrite length_take.
    by replace (Z.to_nat (index + n)
                - Z.to_nat (index + n) `min` length (_items c))%nat
      with 0%nat by lia.
Qed.

Lemma insert_positions_witness :
  item_at 1 (final (ItemCollection.insert no_request 1 item_blog) menu3)
    = Ok item_blog
  ∧ item_at (-2) (final (ItemCollection.insert no_request (-1) item_blog) menu3)
    = Ok item_blog.
Proof.
  split.
  - apply (insert_positions no_request menu3 1 item_blog). by vm_compute.
  - apply (insert_positions no_request menu3 (-1) item_blog). by vm_compute.
Defined.

(** ** Identities the dictionary does not know *)

(** X5.  Deleting at a position whose item has an identity the
    dictionary does not hold raises [KeyError] after the item has been
    removed from the sequence: the sequence is one item shorter and the
    dictionary is as it was. *)
Theorem delitem_unindexed_item (request : Request) (c : ItemCollection)
    (j : nat) (item : Item) :
  _items c !! j = Some item →
  _items_mapping c !! identity_of request item = None →
  ItemCollection.__delitem__ request (Plain (PInt (Z.of_nat j))) c
  = (Raise KeyError,
     {| _items := delete j (_items c); _items_mapping := _items_mapping c |}).
Proof.
  intros Hj Hk. rewrite delitem_run.
  rewrite list_position_nonneg by lia.
  apply lookup_lt_Some in Hj as Hlt.
  case_decide; [|lia]. rewrite Nat2Z.id, Hj. cbn zeta. by rewrite Hk.
Qed.

Lemma delitem_unindexed_item_witness :
  ItemCollection.__delitem__ request_page2 (Plain (PInt 1)) pages
  = (Raise KeyError,
     {| _items := [item_home]; _items_mapping := _items_mapping pages |}).
Proof.
  apply (delitem_unindexed_item request_page2 pages 1 item_page).
  - reflexivity.
  - by vm_compute.
Defined.

(** X6.  Replacing at a position whose item has an identity the
    dictionary does not hold raises [KeyError] and changes nothing: the
    removal of the old entry comes first and fails. *)
Theorem setitem_unindexed_item (request : Request) (c : ItemCollection)
    (j : nat) (old_item item : Item) :
  _items c !! j = Some old_item →
  _items_mapping c !! identity_of request old_item = None →
  ItemCollection.__setitem__ request (Plain (PInt (Z.of_nat j))) item c
  = (Raise KeyError, c).
Proof.
  intros Hj Hk. rewrite setitem_run.
  rewrite list_position_nonneg by lia.
  apply lookup_lt_Some in Hj as Hlt.
  case_decide; [|lia]. by rewrite Nat2Z.id, Hj, Hk.
Qed.

Lemma setitem_unindexed_item_witness :
  ItemCollection.__setitem__ request_page2 (Plain (PInt 1)) item_blog pages
  = (Raise KeyError, pages).
Proof.
  apply (setitem_unindexed_item request_page2 pages 1 item_page item_blog).
  - reflexivity.
  - by vm_compute.
Defined.

(** ** Appending and taking back *)

Lemma delete_last {A} (l : list A) (x : A) :
  delete (length l) (l ++ [x]) = l.
Proof.
  induction l as [|y l IH]; simpl; [done|]. by rewrite IH.
Qed.

Lemma append_then_delete_run (request : Request) (c : ItemCollection)
    (item : Item) :
  ItemCollection.__delitem__ request (Plain (PInt (-1)))
    (final (ItemCollection.append request item) c)
  = (Ok tt, {| _items := _items c;
               _items_mapping :=
                 delete (identity_of request item) (_items_mapping c) |}).
Proof.
  unfold final. rewrite append_run. cbn [snd]. rewrite delitem_run.
  cbn [_items _items_mapping].
  rewrite length_app. simpl length.
  rewrite list_position_negative by lia.
  rewrite list_position_nonneg by lia.
  case_decide; [|lia].
  replace (Z.to_nat (-1 + Z.of_nat (length (_items c) + 1)))
    with (length (_items c)) by lia.
  rewrite lookup_app_r by lia. rewrite Nat.sub_diag. cbn [lookup list_lookup].
  cbn zeta. rewrite lookup_insert_eq, delete_last.
  by rewrite delete_insert_eq.
Qed.

(** X7.  Appending an item whose identity the dictionary does not
    hold and then deleting the last position gives back the collection as
    it was, sequence and dictionary. *)
Theorem append_then_delete_restores (request : Request) (c : ItemCollection)
    (item : Item) :
  _items_mapping c !! identity_of request item = None →
  ItemCollection.__delitem__ request (Plain (PInt (-1)))
    (final (ItemCollection.append request item) c)
  = (Ok tt, c).
Proof.
  intros Hk. rewrite append_then_delete_run.
  rewrite delete_id by done. by destruct c.
Qed.

Lemma append_then_delete_restores_witness :
  ItemCollection.__delitem__ no_request (Plain (PInt (-1)))
    (final (ItemCollection.append no_request item_blog) menu3)
  = (Ok tt, menu3).
Proof. apply append_then_delete_restores. by vm_compute. Defined.

(** X8.  Appending an item with the identity of an item already in
    the sequence and then deleting the last position restores the sequence
    but not the dictionary: the earlier item is still in the sequence and
    looking up its identity raises [KeyError]. *)
Theorem append_duplicate_then_delete (request : Request) (c : ItemCollection)
    (old new : Item) :
  old ∈ _items c →
  identity_of request new = identity_of request old →
  let c' := final (ItemCollection.__delitem__ request (Plain (PInt (-1))))
              (final (ItemCollection.append request new) c) in
  _items c' = _items c
  ∧ old ∈ _items c'
  ∧ outcome (ItemCollection.__getitem__
               (Tuple (endpoint old) (resolved_args request old))) c'
    = Raise KeyError.
Proof.
  intros Hold Hid c'.
  assert (c' = {| _items := _items c;
                  _items_mapping :=
                    delete (identity_of request new) (_items_mapping c) |})
    as ->.
  { subst c'. unfold final at 1. by rewrite append_then_delete_run. }
  cbn [_items]. split_and!; [done..|].
  unfold outcome. rewrite getitem_tuple_run. cbn [fst _items_mapping].
  unfold mapping_getitem. fold (identity_of request old).
  by rewrite Hid, lookup_delete_eq.
Qed.

Lemma append_duplicate_then_delete_witness :
  let c' := final (ItemCollection.__delitem__ no_request (Plain (PInt (-1))))
              (final (ItemCollection.append no_request item_x_ba) menu_x) in
  _items c' = [item_x_ab]
  ∧ outcome (ItemCollection.__getitem__
               (Tuple (PStr "x") [("a", PInt 1); ("b", PInt 2)]%string)) c'
    = Raise KeyError.
Proof.
  intros c'.
  assert (item_x_ab ∈ _items menu_x) as Hin by (by left).
  assert (identity_of no_request item_x_ba = identity_of no_request item_x_ab)
    as Hid by (by vm_compute).
  destruct (append_duplicate_then_delete no_request menu_x item_x_ab item_x_ba
              Hin Hid) as (H1 & _ & H3).
  split; [exact H1 | exact H3].
Defined.

(** ** Replacing and deleting, looked up *)

Lemma setitem_nat_run (request : Request) (c : ItemCollection) (j : nat)
    (old_item item : Item) (x : Item) :
  _items c !! j = Some old_item →
  _items_mapping c !! identity_of request old_item = Some x →
  ItemCollection.__setitem__ request (Plain (PInt (Z.of_nat j))) item c
  = (Ok tt,
     {| _items := <[j:=item]> (_items c);
        _items_mapping :=
          <[identity_of request item := item]>
            (delete (identity_of request old_item) (_items_mapping c)) |}).
Proof.
  intros Hj Hk. rewrite setitem_run.
  rewrite list_position_nonneg by lia.
  apply lookup_lt_Some in Hj as Hlt.
  case_decide; [|lia]. by rewrite Nat2Z.id, Hj, Hk.
Qed.

Lemma delitem_nat_run (request : Request) (c : ItemCollection) (j : nat)
    (item : Item) (x : Item) :
  _items c !! j = Some item →
  _items_mapping c !! identity_of request item = Some x →
  ItemCollection.__delitem__ request (Plain (PInt (Z.of_nat j))) c
  = (Ok tt,
     {| _items := delete j (_items c);
        _items_mapping :=
          delete (identity_of request item) (_items_mapping c) |}).
Proof.
  intros Hj Hk. rewrite delitem_run.
  rewrite list_position_nonneg by lia.
  apply lookup_lt_Some in Hj as Hlt.
  case_decide; [|lia]. rewrite Nat2Z.id, Hj. cbn zeta. by rewrite Hk.
Qed.

Lemma identities_lookup (request : Request) (c : ItemCollection) (j : nat)
    (item : Item) :
  _items c !! j = Some item →
  identities request c !! j = Some (identity_of request item).
Proof. intros Hj. unfold identities. by rewrite list_lookup_fmap, Hj. Qed.

(** X9.  In a collection whose indexes agree, [c[j] = item] at a valid
    position, with an item of another identity than the one it replaces,
    succeeds; then [c[j]] and the lookup by the new identity answer [item],
    the lookup by the replaced identity raises [KeyError], and the length is
    unchanged. *)
Theorem setitem_then_lookup (request : Request) (c : ItemCollection)
    (j : nat) (old_item item : Item) :
  consistent request c →
  _items c !! j = Some old_item →
  identity_of request item ≠ identity_of request old_item →
  let c' := final (ItemCollection.__setitem__ request
                     (Plain (PInt (Z.of_nat j))) item) c in
  outcome (ItemCollection.__setitem__ request
             (Plain (PInt (Z.of_nat j))) item) c = Ok tt
  ∧ outcome (ItemCollection.__getitem__ (Plain (PInt (Z.of_nat j)))) c'
    = Ok item
  ∧ outcome (ItemCollection.__getitem__
               (Tuple (endpoint item) (resolved_args request item))) c'
    = Ok item
  ∧ outcome (ItemCollection.__getitem__
               (Tuple (endpoint old_item) (resolved_args request old_item))) c'
    = Raise KeyError
  ∧ outcome ItemCollection.__len__ c' = outcome ItemCollection.__len__ c.
Proof.
  intros Hc Hj Hne c'.
  destruct (identities_mapped request c j old_item Hc Hj) as [x Hx].
  pose proof (setitem_nat_run request c j old_item item x Hj Hx) as Hrun.
  subst c'. unfold final, outcome. rewrite Hrun. cbn [fst snd].
  rewrite getitem_int_run, !getitem_tuple_run.
  cbn [fst _items _items_mapping]. unfold mapping_getitem.
  fold (identity_of request item). fold (identity_of request old_item).
  split_and!.
  - done.
  - rewrite list_getitem_nat, list_lookup_insert_eq; [done|].
    by eapply lookup_lt_Some.
  - by rewrite lookup_insert_eq.
  - by rewrite lookup_insert_ne, lookup_delete_eq.
  - unfold ItemCollection.__len__, mbind, Py_bind, gets, mret, Py_ret.
    simpl. by rewrite length_insert.
Qed.

Lemma setitem_then_lookup_witness :
  let c' := final (ItemCollection.__setitem__ no_request
                     (Plain (PInt 1)) item_blog) menu3 in
  outcome (ItemCollection.__getitem__ (Tuple (PStr "blog") [])) c'
    = Ok item_blog
  ∧ outcome (ItemCollection.__getitem__ (Tuple (PStr "about") [])) c'
    = Raise KeyError.
Proof.
  intros c'.
  assert (consistent no_request menu3) as Hc by decide_by_computation.
  assert (identity_of no_request item_blog ≠ identity_of no_request item_about)
    as Hne by decide_by_computation.
  destruct (setitem_then_lookup no_request menu3 1 item_about item_blog
              Hc eq_refl Hne) as (_ & _ & H3 & H4 & _).
  split; [exact H3 | exact H4].
Defined.

(** X10.  In a collection whose indexes agree, [del c[j]] at a valid
    position succeeds; the sequence loses exactly that position, the lookup
    by the deleted item's identity raises [KeyError], and every other
    identity is answered as before. *)
Theorem delitem_then_lookup (request : Request) (c : ItemCollection)
    (j : nat) (item : Item) :
  consistent request c →
  _items c !! j = Some item →
  let c' := final (ItemCollection.__delitem__ request
                     (Plain (PInt (Z.of_nat j)))) c in
  outcome (ItemCollection.__delitem__ request
             (Plain (PInt (Z.of_nat j)))) c = Ok tt
  ∧ _items c' = delete j (_items c)
  ∧ S (length (_items c')) = length (_items c)
  ∧ outcome (ItemCollection.__getitem__
               (Tuple (endpoint item) (resolved_args request item))) c'
    = Raise KeyError
  ∧ ∀ k, k ≠ identity_of request item →
         _items_mapping c' !! k = _items_mapping c !! k.
Proof.
  intros Hc Hj c'.
  destruct (identities_mapped request c j item Hc Hj) as [x Hx].
  pose proof (delitem_nat_run request c j item x Hj Hx) as Hrun.
  subst c'. unfold final, outcome. rewrite Hrun. cbn [fst snd].
  rewrite getitem_tuple_run.
  cbn [fst _items _items_mapping]. unfold mapping_getitem.
  fold (identity_of request item).
  split_and!.
  - done.
  - done.
  - rewrite length_delete by eauto. apply lookup_lt_Some in Hj. lia.
  - by rewrite lookup_delete_eq.
  - intros k Hk. by rewrite lookup_delete_ne.
Qed.

Lemma delitem_then_lookup_witness :
  let c' := final (ItemCollection.__delitem__ no_request (Plain (PInt 1))) menu3 in
  _items c' = [item_home; item_contact]
  ∧ outcome (ItemCollection.__getitem__ (Tuple (PStr "about") [])) c'
    = Raise KeyError.
Proof.
  intros c'.
  assert (consistent no_request menu3) as Hc by decide_by_computation.
  destruct (delitem_then_lookup no_request menu3 1 item_about Hc eq_refl)
    as (_ & H2 & _ & H4 & _).
  split; [exact H2 | exact H4].
Defined.

(** X11.  Exchanging two items of a collection by two assignments,
    [c[i] = b] then [c[j] = a] where [a] was at [i] and [b] at [j], succeeds
    and exchanges them in the sequence, but the second assignment removes the
    entry of [b] that the first one wrote: [b] is in the sequence and the
    lookup by its identity raises [KeyError]. *)
Theorem setitem_swap_loses_identity (request : Request) (c : ItemCollection)
    (i j : nat) (a b : Item) :
  consistent request c → distinct request c →
  _items c !! i = Some a → _items c !! j = Some b → i ≠ j →
  let set_ (p : nat) (item : Item) :=
    ItemCollection.__setitem__ request (Plain (PInt (Z.of_nat p))) item in
  let c1 := final (set_ i b) c in
  let c2 := final (set_ j a) c1 in
  outcome (set_ i b) c = Ok tt
  ∧ outcome (set_ j a) c1 = Ok tt
  ∧ _items c2 = <[j:=a]> (<[i:=b]> (_items c))
  ∧ b ∈ _items c2
  ∧ outcome (ItemCollection.__getitem__
               (Tuple (endpoint b) (resolved_args request b))) c2
    = Raise KeyError.
Proof.
  intros Hc Hd Hi Hj Hij set_ c1 c2.
  assert (identity_of request a ≠ identity_of request b) as Hab.
  { intros E. apply Hij.
    apply (NoDup_lookup _ i j (identity_of request a) Hd).
    - by apply identities_lookup.
    - rewrite E. by apply identities_lookup. }
  destruct (identities_mapped request c i a Hc Hi) as [x Hx].
  pose proof (setitem_nat_run request c i a b x Hi Hx) as Hrun1.
  assert (c1 = {| _items := <[i:=b]> (_items c);
                  _items_mapping :=
                    <[identity_of request b := b]>
                      (delete (identity_of request a) (_items_mapping c)) |})
    as Hc1.
  { subst c1 set_. unfold final. by rewrite Hrun1. }
  assert (_items c1 !! j = Some b) as Hj1.
  { rewrite Hc1. cbn [_items]. by rewrite list_lookup_insert_ne. }
  assert (_items_mapping c1 !! identity_of request b = Some b) as Hb1.
  { rewrite Hc1. cbn [_items_mapping]. apply lookup_insert_eq. }
  pose proof (setitem_nat_run request c1 j b a b Hj1 Hb1) as Hrun2.
  assert (c2 = {| _items := <[j:=a]> (_items c1);
                  _items_mapping :=
                    <[identity_of request a := a]>
                      (delete (identity_of request b) (_items_mapping c1)) |})
    as Hc2.
  { subst c2 set_. unfold final. by rewrite Hrun2. }
  split_and!.
  - subst set_. unfold outcome. by rewrite Hrun1.
  - subst set_. unfold outcome. by rewrite Hrun2.
  - rewrite Hc2, Hc1. done.
  - rewrite Hc2, Hc1. cbn [_items]. apply list_elem_of_lookup. exists i.
    rewrite list_lookup_insert_ne by done.
    apply list_lookup_insert_eq. by eapply lookup_lt_Some.
  - unfold outcome. rewrite getitem_tuple_run, Hc2.
    cbn [fst _items_mapping]. unfold mapping_getitem.
    fold (identity_of request b).
    by rewrite lookup_insert_ne, lookup_delete_eq.
Qed.

Lemma setitem_swap_loses_identity_witness :
  let c1 := final (ItemCollection.__setitem__ no_request
                     (Plain (PInt 0)) item_contact) menu3 in
  let c2 := final (ItemCollection.__setitem__ no_request
                     (Plain (PInt 2)) item_home) c1 in
  _items c2 = [item_contact; item_about; item_home]
  ∧ outcome (ItemCollection.__getitem__ (Tuple (PStr "contact") [])) c2
    = Raise KeyError.
Proof.
  intros c1 c2.
  assert (consistent no_request menu3) as Hc by decide_by_computation.
  assert (distinct no_request menu3) as Hd by decide_by_computation.
  assert (0%nat ≠ 2%nat) as Hne by lia.
  destruct (setitem_swap_loses_identity no_request menu3 0 2
              item_home item_contact Hc Hd eq_refl eq_refl Hne)
    as (_ & _ & H3 & _ & H5).
  split; [exact H3 | exact H5].
Defined.

(** ** Subscripts that are not integers *)

Lemma getitem_key_run (index : subscript) (c : ItemCollection) :
  (∀ i, index ≠ Plain (PInt i)) →
  ItemCollection.__getitem__ index c
  = (mapping_getitem (_items_mapping c) (subscript_key index), c).
Proof.
  intros Hindex. destruct index as [v|endpoint args].
  - apply getitem_plain_run. intros i ->. by destruct (Hindex i).
  - apply getitem_tuple_run.
Qed.

(** X12.  Only integer subscripts replace or delete.  With a subscript that
    is [None], a string or an [(endpoint, args)] tuple, [c[index] = item]
    raises [TypeError], and [del c[index]] raises [KeyError] when the lookup
    finds nothing and [TypeError] when it finds the item; the collection is
    unchanged in every case. *)
Theorem non_integer_subscript (request : Request) (c : ItemCollection)
    (index : subscript) (item : Item) :
  (∀ i, index ≠ Plain (PInt i)) →
  ItemCollection.__setitem__ request index item c = (Raise TypeError, c)
  ∧ (_items_mapping c !! subscript_key index = None →
     ItemCollection.__delitem__ request index c = (Raise KeyError, c))
  ∧ (is_Some (_items_mapping c !! subscript_key index) →
     ItemCollection.__delitem__ request index c = (Raise TypeError, c)).
Proof.
  intros Hindex.
  assert (as_list_index index = Raise TypeError) as Hlist.
  { destruct index as [[]|]; try done. by destruct (Hindex z). }
  split_and!.
  - unfold ItemCollection.__setitem__. py_run. by rewrite Hlist.
  - intros Hk. unfold ItemCollection.__delitem__. py_run.
    rewrite getitem_key_run by done. unfold mapping_getitem. by rewrite Hk.
  - intros [found Hk]. unfold ItemCollection.__delitem__. py_run.
    rewrite getitem_key_run by done. unfold mapping_getitem. rewrite Hk.
    by rewrite Hlist.
Qed.

Lemma non_integer_subscript_witness :
  ItemCollection.__setitem__ no_request (Plain (PStr "about")) item_blog menu3
    = (Raise TypeError, menu3)
  ∧ ItemCollection.__delitem__ no_request (Plain (PStr "blog")) menu3
    = (Raise KeyError, menu3)
  ∧ ItemCollection.__delitem__ no_request (Tuple (PStr "about") []) menu3
    = (Raise TypeError, menu3).
Proof.
  assert (∀ i, Plain (PStr "about") ≠ Plain (PInt i)) as Habout by done.
  assert (∀ i, Plain (PStr "blog") ≠ Plain (PInt i)) as Hblog by done.
  assert (∀ i, Tuple (PStr "about") [] ≠ Plain (PInt i)) as Htuple by done.
  split_and!.
  - exact (proj1 (non_integer_subscript no_request menu3 _ item_blog Habout)).
  - apply (proj1 (proj2 (non_integer_subscript no_request menu3 _ item_blog
                           Hblog))).
    by vm_compute.
  - apply (proj2 (proj2 (non_integer_subscript no_request menu3 _ item_blog
                           Htuple))).
    exists item_about. by vm_compute.
Defined.

(** X13.  [c[endpoint, args]] does not depend on the order of the
    keys in [args]: two dictionaries with the same pairs give the same
    answer, found or [KeyError]. *)
Theorem lookup_ignores_key_order (c : ItemCollection) (endpoint : pyval)
    (args1 args2 : pydict) :
  dict_wf args1 → dict_wf args2 → same_pairs args1 args2 →
  ItemCollection.__getitem__ (Tuple endpoint args1) c
  = ItemCollection.__getitem__ (Tuple endpoint args2) c.
Proof.
  intros H1 H2 Hsame. rewrite !getitem_tuple_run.
  rewrite (freeze_dict_Permutation_eq args1 args2); [done..|].
  by apply same_pairs_Permutation.
Qed.

Lemma lookup_ignores_key_order_witness :
  ItemCollection.__getitem__
    (Tuple (PStr "x") [("a", PInt 1); ("b", PInt 2)]%string) menu_x
  = ItemCollection.__getitem__
      (Tuple (PStr "x") [("b", PInt 2); ("a", PInt 1)]%string) menu_x.
Proof.
  apply lookup_ignores_key_order; decide_by_computation.
Defined.

(** X14.  A negative position within range counts from the end: for
    [-n <= index < 0], reading, replacing and deleting at [index] do what
    they do at [index + n]. *)
Theorem negative_subscript (request : Request) (c : ItemCollection)
    (index : Z) (item : Item) :
  let n := Z.of_nat (length (_items c)) in
  - n ≤ index < 0 →
  ItemCollection.__getitem__ (Plain (PInt index)) c
  = ItemCollection.__getitem__ (Plain (PInt (index + n))) c
  ∧ ItemCollection.__setitem__ request (Plain (PInt index)) item c
    = ItemCollection.__setitem__ request (Plain (PInt (index + n))) item c
  ∧ ItemCollection.__delitem__ request (Plain (PInt index)) c
    = ItemCollection.__delitem__ request (Plain (PInt (index + n))) c.
Proof.
  intros n Hi.
  assert (list_position (length (_items c)) index
          = list_position (length (_items c)) (index + n)) as E.
  { rewrite list_position_negative by (subst n; lia).
    rewrite !list_position_nonneg by (subst n; lia).
    do 2 case_decide; done || (subst n; lia). }
  split_and!.
  - rewrite !getitem_int_run. unfold list_getitem. by rewrite E.
  - rewrite !setitem_run. by rewrite E.
  - rewrite !delitem_run. by rewrite E.
Qed.

Lemma negative_subscript_witness :
  ItemCollection.__getitem__ (Plain (PInt (-1))) menu3
  = ItemCollection.__getitem__ (Plain (PInt (-1 + 3))) menu3.
Proof.
  apply (negative_subscript no_request menu3 (-1) item_blog). by vm_compute.
Defined.

(** ** Identity and the active item *)

(** X15.  Two items have the same identity exactly when they have the
    same endpoint and their resolved [args] hold the same pairs; label,
    literal url and key order play no part. *)
Theorem identity_eq_iff (request : Request) (a b : Item) :
  identity_of request a = identity_of request b
  ↔ endpoint a = endpoint b
    ∧ same_pairs (resolved_args request a) (resolved_args request b).
Proof.
  split.
  - unfold identity_of. intros [= Hep Hargs]. split; [done|].
    by apply freeze_dict_same_pairs.
  - intros [Hep Hsame]. unfold identity_of. rewrite Hep. f_equal.
    apply freeze_dict_Permutation_eq; [apply resolved_args_wf|].
    apply same_pairs_Permutation; auto using resolved_args_wf.
Qed.

Lemma identity_eq_iff_witness :
  identity_of no_request item_x_ab = identity_of no_request item_x_ba.
Proof.
  apply identity_eq_iff. split; [reflexivity|]. decide_by_computation.
Defined.

Lemma active_identity (request : Request) (self : Item) :
  request_wf request →
  Item.is_active request self = (Ok true, self) →
  ∃ view_args,
    request_view_args request = Some view_args
    ∧ identity_of request self
      = (request_endpoint request, freeze_dict view_args).
Proof.
  intros Hwf. rewrite is_active_run. intros [= H].
  apply andb_true_iff in H as [H Hargs].
  apply andb_true_iff in H as [_ Hep%bool_decide_eq_true].
  destruct (request_view_args request) as [va|] eqn:Hva; [|done].
  exists va. split; [done|]. unfold identity_of. rewrite <- Hep. f_equal.
  symmetry. apply freeze_dict_Permutation_eq; [by apply Hwf|].
  apply same_pairs_Permutation; [by apply Hwf|apply resolved_args_wf|].
  by apply dict_eqb_same_pairs; [apply Hwf|apply resolved_args_wf|].
Qed.

(** X16.  In a collection whose items have pairwise different
    identities, at most one position holds an active item under a given
    request. *)
Theorem at_most_one_active (request : Request) (c : ItemCollection)
    (i j : nat) (a b : Item) :
  request_wf request → distinct request c →
  _items c !! i = Some a → _items c !! j = Some b →
  Item.is_active request a = (Ok true, a) →
  Item.is_active request b = (Ok true, b) →
  i = j.
Proof.
  intros Hwf Hd Hi Hj Ha Hb.
  destruct (active_identity request a Hwf Ha) as (va & Hva & Hida).
  destruct (active_identity request b Hwf Hb) as (vb & Hvb & Hidb).
  apply (NoDup_lookup _ i j (identity_of request a) Hd).
  - by apply identities_lookup.
  - rewrite Hida. rewrite Hva in Hvb. injection Hvb as <-.
    rewrite <- Hidb. by apply identities_lookup.
Qed.

Lemma at_most_one_active_witness :
  (request_wf request_about ∧ distinct request_about menu3)
  ∧ 1%nat = 1%nat.
Proof.
  assert (request_wf request_about) as Hwf.
  { intros va [= <-]. constructor. }
  assert (distinct request_about menu3) as Hd by decide_by_computation.
  split; [done|].
  exact (at_most_one_active request_about menu3 1 1 item_about item_about
           Hwf Hd eq_refl eq_refl eq_refl eq_refl).
Defined.

(** X17.  An active item that the dictionary holds under its identity
    is the answer of [c[request.endpoint, request.view_args]]. *)
Theorem active_item_lookup (request : Request) (c : ItemCollection)
    (self : Item) (view_args : pydict) :
  request_wf request →
  request_view_args request = Some view_args →
  Item.is_active request self = (Ok true, self) →
  _items_mapping c !! identity_of request self = Some self →
  ItemCollection.__getitem__ (Tuple (request_endpoint request) view_args) c
  = (Ok self, c).
Proof.
  intros Hwf Hva Hact Hmap.
  destruct (active_identity request self Hwf Hact) as (va & Hva' & Hid).
  rewrite Hva in Hva'. injection Hva' as <-.
  rewrite getitem_tuple_run. unfold mapping_getitem.
  by rewrite <- Hid, Hmap.
Qed.

Lemma active_item_lookup_witness :
  ItemCollection.__getitem__ (Tuple (PStr "about") []) menu3
  = (Ok item_about, menu3).
Proof.
  assert (request_wf request_about) as Hwf.
  { intros va [= <-]. constructor. }
  apply (active_item_lookup request_about menu3 item_about [] Hwf eq_refl eq_refl).
  by vm_compute.
Defined.

(** X18.  Reading [args] always yields a dictionary, each key once.
    When the stored mapping, or the mapping the stored function returns, is
    a dictionary already, the read yields its entries in the same order. *)
Theorem args_copies_dictionary (request : Request) (self : Item) :
  dict_wf (resolved_args request self)
  ∧ (∀ m, _args self = ArgsMapping m → dict_wf m →
       Item.args request self = (Ok m, self))
  ∧ (∀ f, _args self = ArgsCallable f → dict_wf (f request) →
       Item.args request self = (Ok (f request), self)).
Proof.
  split_and!.
  - apply resolved_args_wf.
  - intros m Hm Hwf. rewrite args_run. do 2 f_equal.
    unfold resolved_args, outcome, Item.args, gets, mbind, Py_bind, mret, Py_ret.
    rewrite Hm. simpl. by apply dict_ctor_copy.
  - intros f Hf Hwf. rewrite args_run. do 2 f_equal.
    unfold resolved_args, outcome, Item.args, gets, mbind, Py_bind, mret, Py_ret.
    rewrite Hf. simpl. by apply dict_ctor_copy.
Qed.

Lemma args_copies_dictionary_witness :
  Item.args no_request item_x_ba
  = (Ok [("b", PInt 2); ("a", PInt 1)]%string, item_x_ba).
Proof.
  apply (args_copies_dictionary no_request item_x_ba); [reflexivity|].
  decide_by_computation.
Defined.

(** X19.  The dictionary keeps the identity an item had when it was
    appended.  When the item's identity under the present request differs
    (its [args] being a function of the request) and the dictionary holds
    nothing under the present one, the entry written at the time is still
    there, the lookup by the present identity raises [KeyError], replacing
    the item raises [KeyError] and changes nothing, and deleting it raises
    [KeyError] after removing it from the sequence, leaving the old entry in
    the dictionary. *)
Theorem identity_drift (r1 r2 : Request) (c : ItemCollection)
    (item other : Item) :
  identity_of r1 item ≠ identity_of r2 item →
  _items_mapping c !! identity_of r2 item = None →
  let c' := final (ItemCollection.append r1 item) c in
  _items_mapping c' !! identity_of r1 item = Some item
  ∧ outcome (ItemCollection.__getitem__
               (Tuple (endpoint item) (resolved_args r2 item))) c'
    = Raise KeyError
  ∧ ItemCollection.__setitem__ r2 (Plain (PInt (-1))) other c'
    = (Raise KeyError, c')
  ∧ ItemCollection.__delitem__ r2 (Plain (PInt (-1))) c'
    = (Raise KeyError,
       {| _items := _items c; _items_mapping := _items_mapping c' |}).
Proof.
  intros Hne Hnone c'.
  assert (c' = {| _items := _items c ++ [item];
                  _items_mapping :=
                    <[identity_of r1 item := item]> (_items_mapping c) |})
    as Hc'.
  { subst c'. unfold final. by rewrite append_run. }
  clearbody c'. subst c'.
  assert (<[identity_of r1 item := item]> (_items_mapping c)
            !! identity_of r2 item = None) as Hk.
  { by rewrite lookup_insert_ne. }
  assert (list_position (length (_items c ++ [item])) (-1)
          = Some (length (_items c))) as Hpos.
  { rewrite length_app. simpl length.
    rewrite list_position_negative by lia.
    rewrite list_position_nonneg by lia.
    case_decide; [|lia]. f_equal. lia. }
  assert ((_items c ++ [item]) !! length (_items c) = Some item) as Hlast.
  { rewrite lookup_app_r by lia. by rewrite Nat.sub_diag. }
  split_and!.
  - cbn [_items_mapping]. apply lookup_insert_eq.
  - unfold outcome. rewrite getitem_tuple_run. cbn [fst _items_mapping].
    unfold mapping_getitem. fold (identity_of r2 item). by rewrite Hk.
  - rewrite setitem_run. cbn [_items _items_mapping].
    by rewrite Hpos, Hlast, Hk.
  - rewrite delitem_run. cbn [_items _items_mapping].
    rewrite Hpos, Hlast. cbn zeta. by rewrite Hk, delete_last.
Qed.

Lemma identity_drift_witness :
  let c' := final (ItemCollection.append request_page1 item_page) menu3 in
  ItemCollection.__delitem__ request_page2 (Plain (PInt (-1))) c'
  = (Raise KeyError,
     {| _items := _items menu3; _items_mapping := _items_mapping c' |}).
Proof.
  intros c'.
  apply (identity_drift request_page1 request_page2 menu3 item_page item_blog).
  - decide_by_computation.
  - by vm_compute.
Defined.

(** X20.  In a collection no longer than a list can be, [insert] with an
    index outside the range of a C [ssize_t] raises [OverflowError] and
    leaves the sequence and the dictionary as they were. *)
Theorem insert_overflow (request : Request) (c : ItemCollection)
    (index : Z) (item : Item) :
  Z.of_nat (length (_items c)) ≤ ssize_t_max →
  ¬ fits_ssize_t index →
  ItemCollection.insert request index item c = (Raise OverflowError, c).
Proof.
  intros Hn Hfits. apply insert_overflow_run.
  apply not_true_is_false. intros H. apply Hfits.
  by apply (index_converts_fits (length (_items c))).
Qed.

Lemma insert_overflow_witness :
  ItemCollection.insert no_request (- 2 ^ 63 - 1) item_blog menu3
  = (Raise OverflowError, menu3).
Proof.
  apply insert_overflow.
  - by vm_compute.
  - decide_by_computation.
Defined.
